(** * Address book with a weekly birthday report: a shallow embedding of main.py

    The development follows the layout of the program:
    - [Py]        exceptions and the error monad used for code that may raise;
    - [Datetime]  the part of Python's [datetime.date] that the program calls
                  (construction, [replace], comparison, subtraction,
                  [+ timedelta], [weekday], [strftime("%A")]);
    - [Strptime]  [datetime.strptime(value, '%d.%m.%Y')];
    - the classes [Name], [Phone], [Birthday], [Record], [AddressBook];
    - the command handlers wrapped by [input_error].

    Strings are Rocq strings: the text of a command line, read as ASCII.
    The character classes below ([isdigit], the digit class of the date
    pattern, white space) are those of Python on ASCII text; a theorem
    whose truth depends on how other text is classified carries the
    hypothesis [ascii_text], the others use a validator only through its
    verdict.
    A dict is an association list in insertion order, as Python iterates it. *)

From Stdlib Require Import ZArith List String Ascii Bool Lia.
Import ListNotations.
Local Open Scope string_scope.
Local Open Scope Z_scope.

(* ------------------------------------------------------------------ *)
(** ** Exceptions *)

Module Py.

(** The exceptions the program raises or catches. *)
Inductive exn : Type :=
| ValueError
| KeyError (key : string)
| IndexError
| OverflowError.

(** A computation either returns a value or raises. *)
Inductive result (A : Type) : Type :=
| Ok (a : A)
| Raise (e : exn).

Arguments Ok {A} a.
Arguments Raise {A} e.

Definition bind {A B : Type} (m : result A) (k : A -> result B) : result B :=
  match m with
  | Ok a => k a
  | Raise e => Raise e
  end.

Definition is_ok {A : Type} (m : result A) : bool :=
  match m with
  | Ok _ => true
  | Raise _ => false
  end.

End Py.

Import Py.

Notation "x <- m ;; k" := (bind m (fun x => k))
  (at level 61, m at next level, right associativity).

(* ------------------------------------------------------------------ *)
(** ** datetime.date *)

Module Datetime.

Definition MINYEAR : Z := 1.
Definition MAXYEAR : Z := 9999.

(** [_is_leap]: year % 4 == 0 and (year % 100 != 0 or year % 400 == 0). *)
Definition is_leap (year : Z) : bool :=
  (year mod 4 =? 0) && (negb (year mod 100 =? 0) || (year mod 400 =? 0)).

(** [_DAYS_IN_MONTH], for a month in 1..12. *)
Definition DAYS_IN_MONTH (month : Z) : Z :=
  match month with
  | 1 => 31 | 2 => 28 | 3 => 31 | 4 => 30 | 5 => 31 | 6 => 30
  | 7 => 31 | 8 => 31 | 9 => 30 | 10 => 31 | 11 => 30 | 12 => 31
  | _ => -1
  end.

(** [_DAYS_BEFORE_MONTH]: days of a common year before the first of [month]. *)
Definition DAYS_BEFORE_MONTH (month : Z) : Z :=
  match month with
  | 1 => 0 | 2 => 31 | 3 => 59 | 4 => 90 | 5 => 120 | 6 => 151
  | 7 => 181 | 8 => 212 | 9 => 243 | 10 => 273 | 11 => 304 | 12 => 334
  | _ => -1
  end.

Definition days_before_year (year : Z) : Z :=
  let y := year - 1 in
  y * 365 + y / 4 - y / 100 + y / 400.

Definition days_in_month (year month : Z) : Z :=
  if (month =? 2) && is_leap year then 29 else DAYS_IN_MONTH month.

Definition days_before_month (year month : Z) : Z :=
  DAYS_BEFORE_MONTH month + (if (2 <? month) && is_leap year then 1 else 0).

Definition ymd2ord (year month day : Z) : Z :=
  days_before_year year + days_before_month year month + day.

Definition DI400Y : Z := 146097.
Definition DI100Y : Z := 36524.
Definition DI4Y : Z := 1461.
Definition MAXORDINAL : Z := 3652059.

(** [_ord2ymd]: the (year, month, day) of the day with ordinal [n]. *)
Definition ord2ymd (n0 : Z) : Z * Z * Z :=
  let n := n0 - 1 in
  let n400 := n / DI400Y in
  let n := n mod DI400Y in
  let year := n400 * 400 + 1 in
  let n100 := n / DI100Y in
  let n := n mod DI100Y in
  let n4 := n / DI4Y in
  let n := n mod DI4Y in
  let n1 := n / 365 in
  let n := n mod 365 in
  let year := year + (n100 * 100 + n4 * 4 + n1) in
  if (n1 =? 4) || (n100 =? 4) then (year - 1, 12, 31)
  else
    let leapyear := (n1 =? 3) && (negb (n4 =? 24) || (n100 =? 3)) in
    let month := Z.shiftr (n + 50) 5 in
    let preceding :=
      DAYS_BEFORE_MONTH month + (if (2 <? month) && leapyear then 1 else 0) in
    if n <? preceding then
      let month := month - 1 in
      let preceding :=
        preceding
        - (DAYS_IN_MONTH month + (if (month =? 2) && leapyear then 1 else 0)) in
      (year, month, n - preceding + 1)
    else (year, month, n - preceding + 1).

(** A date object. Every constructor of the library goes through
    [_check_date_fields]; [new] below is that constructor. *)
Record date : Type := mkdate { year : Z; month : Z; day : Z }.

Definition check_date_fields (y m d : Z) : bool :=
  (MINYEAR <=? y) && (y <=? MAXYEAR) &&
  (1 <=? m) && (m <=? 12) &&
  (1 <=? d) && (d <=? days_in_month y m).

(** [date(year, month, day)]: ValueError when a field is out of range. *)
Definition new (y m d : Z) : result date :=
  if check_date_fields y m d then Ok (mkdate y m d) else Raise ValueError.

(** [self.replace(year=y)] and [self.replace(day=d)] build a new date. *)
Definition replace_year (self : date) (y : Z) : result date :=
  new y (month self) (day self).

Definition replace_day (self : date) (d : Z) : result date :=
  new (year self) (month self) d.

(** [self < other]: comparison of the (year, month, day) tuples. *)
Definition lt (a b : date) : bool :=
  (year a <? year b)
  || ((year a =? year b)
      && ((month a <? month b)
          || ((month a =? month b) && (day a <? day b)))).

Definition toordinal (self : date) : Z :=
  ymd2ord (year self) (month self) (day self).

(** [self.weekday()]: Monday is 0, Sunday is 6. *)
Definition weekday (self : date) : Z :=
  (toordinal self + 6) mod 7.

(** [(a - b).days]. *)
Definition sub_days (a b : date) : Z :=
  toordinal a - toordinal b.

Definition fromordinal (n : Z) : date :=
  let '(y, m, d) := ord2ymd n in mkdate y m d.

(** [self + timedelta(days=n)]: OverflowError outside date.min..date.max. *)
Definition add_days (self : date) (n : Z) : result date :=
  let o := toordinal self + n in
  if (0 <? o) && (o <=? MAXORDINAL) then Ok (fromordinal o)
  else Raise OverflowError.

(** [self.strftime("%A")] in the C locale. *)
Definition day_name (wd : Z) : string :=
  match wd with
  | 0 => "Monday" | 1 => "Tuesday" | 2 => "Wednesday" | 3 => "Thursday"
  | 4 => "Friday" | 5 => "Saturday" | _ => "Sunday"
  end.

Definition strftime_A (self : date) : string :=
  day_name (weekday self).

(** What [datetime.today()] reads from the clock: a date and a time of day
    (seconds and microseconds since midnight); [.date()] drops the time. *)
Record datetime : Type := mkdatetime { dt_date : date; dt_time : Z }.

End Datetime.

Import Datetime.

(* ------------------------------------------------------------------ *)
(** ** Characters and [int()] *)

Module Text.

Definition code (c : ascii) : Z := Z.of_N (N_of_ascii c).

(** [c] is one of '0'..'9'. *)
Definition is_digit (c : ascii) : bool :=
  (48 <=? code c) && (code c <=? 57).

Definition digit_val (c : ascii) : Z := code c - 48.

(** ASCII white space, as [str.strip] and [int] see it. *)
Definition is_space (c : ascii) : bool :=
  (code c =? 32) || ((9 <=? code c) && (code c <=? 13)).

(** [value.isdigit()] on ASCII text: at least one character and all of
    them digits. *)
Fixpoint all_digits (s : string) : bool :=
  match s with
  | EmptyString => true
  | String c s' => is_digit c && all_digits s'
  end.

Definition isdigit (s : string) : bool :=
  match s with
  | EmptyString => false
  | _ => all_digits s
  end.

(** [len(value)]. *)
Definition len (s : string) : Z := Z.of_nat (String.length s).

Fixpoint lstrip (s : string) : string :=
  match s with
  | String c s' => if is_space c then lstrip s' else s
  | EmptyString => EmptyString
  end.

(** Reads decimal digits left to right; stops with [None] at anything else,
    apart from trailing white space. *)
Fixpoint digits_value (acc : Z) (s : string) : option Z :=
  match s with
  | EmptyString => Some acc
  | String c s' =>
      if is_digit c then digits_value (10 * acc + digit_val c) s'
      else if is_space c then
        match lstrip s' with EmptyString => Some acc | _ => None end
      else None
  end.

(** [int(s)] on the texts the program converts: decimal digits with optional
    surrounding white space. Signs and underscores, which no group of the
    date pattern can hold, raise here as any other character does. *)
Definition int (s : string) : result Z :=
  match lstrip s with
  | EmptyString => Raise ValueError
  | String c s' =>
      if is_digit c then
        match digits_value 0 (String c s') with
        | Some n => Ok n
        | None => Raise ValueError
        end
      else Raise ValueError
  end.

End Text.

(* ------------------------------------------------------------------ *)
(** ** datetime.strptime(value, '%d.%m.%Y') *)

Module Strptime.

Import Text.

(** Character sets of the regular expressions [_strptime] builds. *)
Inductive cset : Type :=
| One (c : ascii)          (* a literal character *)
| Range (lo hi : ascii)    (* [lo-hi] *)
| Digit.                   (* \d, on ASCII text *)

Definition cset_mem (cs : cset) (a : ascii) : bool :=
  match cs with
  | One c => code a =? code c
  | Range lo hi => (code lo <=? code a) && (code a <=? code hi)
  | Digit => is_digit a
  end.

Inductive regex : Type :=
| Chr (cs : cset)
| Cat (r1 r2 : regex)
| Alt (r1 r2 : regex)
| Grp (name : string) (r : regex).    (* (?P<name>r) *)

Definition groups : Type := list (string * string).

(** The backtracking matcher of [re.match]: alternatives are tried from left
    to right and the first way to reach the end of the pattern wins. The
    continuation receives the text matched so far by the current
    sub-expression, the rest of the input and the groups closed so far. *)
Fixpoint rmatch {R : Type} (r : regex) (s : string) (g : groups)
    (k : string -> string -> groups -> option R) : option R :=
  match r with
  | Chr cs =>
      match s with
      | String a s' =>
          if cset_mem cs a then k (String a EmptyString) s' g else None
      | EmptyString => None
      end
  | Cat r1 r2 =>
      rmatch r1 s g (fun m1 s1 g1 =>
        rmatch r2 s1 g1 (fun m2 s2 g2 => k (m1 ++ m2)%string s2 g2))
  | Alt r1 r2 =>
      match rmatch r1 s g k with
      | Some x => Some x
      | None => rmatch r2 s g k
      end
  | Grp name r1 =>
      rmatch r1 s g (fun m s1 g1 => k m s1 ((name, m) :: g1))
  end.

Definition lit (c : ascii) : regex := Chr (One c).
Definition rng (lo hi : ascii) : regex := Chr (Range lo hi).
Definition dig : regex := Chr Digit.

(** %d : (?P<d>3[0-1]|[1-2]\d|0[1-9]|[1-9]| [1-9]) *)
Definition re_d : regex :=
  Grp "d"
    (Alt (Cat (lit "3") (rng "0" "1"))
    (Alt (Cat (rng "1" "2") dig)
    (Alt (Cat (lit "0") (rng "1" "9"))
    (Alt (rng "1" "9")
         (Cat (lit " ") (rng "1" "9")))))).

(** %m : (?P<m>1[0-2]|0[1-9]|[1-9]) *)
Definition re_m : regex :=
  Grp "m"
    (Alt (Cat (lit "1") (rng "0" "2"))
    (Alt (Cat (lit "0") (rng "1" "9"))
         (rng "1" "9"))).

(** %Y : (?P<Y>\d\d\d\d) *)
Definition re_Y : regex :=
  Grp "Y" (Cat dig (Cat dig (Cat dig dig))).

(** The pattern of the format '%d.%m.%Y'. *)
Definition format_regex : regex :=
  Cat re_d (Cat (lit ".") (Cat re_m (Cat (lit ".") re_Y))).

Fixpoint group (g : groups) (name : string) : string :=
  match g with
  | [] => EmptyString
  | (n, v) :: g' => if String.eqb n name then v else group g' name
  end.

(** [_strptime]: match the pattern at the start of the text, refuse text
    left over ("unconverted data remains"), convert the groups and build
    the date, which checks the calendar. *)
Definition strptime (data_string : string) : result date :=
  match rmatch format_regex data_string [] (fun m rest g => Some (m, rest, g)) with
  | None => Raise ValueError
  | Some (found, rest, g) =>
      if negb (len data_string =? len found) then Raise ValueError
      else
        d <- int (group g "d") ;;
        m <- int (group g "m") ;;
        y <- int (group g "Y") ;;
        Datetime.new y m d
  end.

End Strptime.

(* ------------------------------------------------------------------ *)
(** ** Fields: Name, Phone, Birthday *)

(** A field object holds its [value]; the constructors below return the value
    the new object holds, or raise. *)

Module Name.

(** [Name(value)]: raises when [not value], that is for the empty string. *)
Definition new (value : string) : result string :=
  match value with
  | EmptyString => Raise ValueError
  | _ => Ok value
  end.

End Name.

Module Phone.

Definition validate_phone (value : string) : bool :=
  (Text.len value =? 10) && Text.isdigit value.

Definition new (value : string) : result string :=
  if negb (validate_phone value) then Raise ValueError else Ok value.

End Phone.

Module Birthday.

(** try: strptime(value, '%d.%m.%Y'); return True / except ValueError: False *)
Definition validate_birthday (value : string) : bool :=
  match Strptime.strptime value with
  | Ok _ => true
  | Raise ValueError => false
  | Raise _ => false
  end.

Definition new (value : string) : result string :=
  if negb (validate_birthday value) then Raise ValueError else Ok value.

(** [self.to_datetime()], followed at its only call site by [.date()]. *)
Definition to_datetime (self : string) : result date :=
  Strptime.strptime self.

End Birthday.

(* ------------------------------------------------------------------ *)
(** ** Record *)

(** One contact: the value of its Name, the values of its Phone objects in
    list order, and the value of its Birthday when one is set. A method that
    mutates [self] returns the record after the call; a method raises before
    it has changed anything. *)
Record record : Type := mkRecord {
  name : string;
  phones : list string;
  birthday : option string
}.

Module Rec.

(** [Record(name)] *)
Definition init (nm : string) : result record :=
  n <- Name.new nm ;;
  Ok (mkRecord n [] None).

Definition add_phone (self : record) (phone : string) : result record :=
  p <- Phone.new phone ;;
  Ok (mkRecord (name self) (phones self ++ [p])%list (birthday self)).

Definition add_birthday (self : record) (bday : string) : result record :=
  b <- Birthday.new bday ;;
  Ok (mkRecord (name self) (phones self) (Some b)).

Definition remove_phone (self : record) (phone : string) : record :=
  mkRecord (name self)
    (filter (fun p => negb (String.eqb p phone)) (phones self))
    (birthday self).

Definition remove_phones (self : record) : record :=
  mkRecord (name self) [] (birthday self).

(** for phone in self.phones: if phone.value == old_phone:
      phone.value = new_phone; break *)
Fixpoint edit_first (ps : list string) (old_phone new_phone : string)
  : list string :=
  match ps with
  | [] => []
  | p :: ps' =>
      if String.eqb p old_phone then new_phone :: ps'
      else p :: edit_first ps' old_phone new_phone
  end.

Definition edit_phone (self : record) (old_phone new_phone : string)
  : result record :=
  Ok (mkRecord (name self) (edit_first (phones self) old_phone new_phone)
        (birthday self)).

Fixpoint find_phone_in (ps : list string) (phone : string) : option string :=
  match ps with
  | [] => None
  | p :: ps' => if String.eqb p phone then Some p else find_phone_in ps' phone
  end.

Definition find_phone (self : record) (phone : string) : option string :=
  find_phone_in (phones self) phone.

Definition get_birthday (self : record) : option string :=
  birthday self.

End Rec.

(* ------------------------------------------------------------------ *)
(** ** Dictionaries in insertion order *)

Module Dict.

Section Dict.
Context {V : Type}.

Definition dict : Type := list (string * V).

(** [d.get(key, None)] *)
Fixpoint get (d : dict) (key : string) : option V :=
  match d with
  | [] => None
  | (k, v) :: d' => if String.eqb k key then Some v else get d' key
  end.

(** [d[key] = v]: an existing key keeps its place. *)
Fixpoint set (d : dict) (key : string) (v : V) : dict :=
  match d with
  | [] => [(key, v)]
  | (k, v0) :: d' =>
      if String.eqb k key then (k, v) :: d' else (k, v0) :: set d' key v
  end.

(** [del d[key]] for a key that may be absent. *)
Fixpoint del (d : dict) (key : string) : dict :=
  match d with
  | [] => []
  | (k, v0) :: d' =>
      if String.eqb k key then d' else (k, v0) :: del d' key
  end.

Definition keys (d : dict) : list string := map fst d.

End Dict.

Arguments dict V : clear implicits.

End Dict.

(* ------------------------------------------------------------------ *)
(** ** AddressBook *)

(** [self.data]: contact name to Record. *)
Definition AddressBook : Type := Dict.dict record.

(** The report: weekday name to the names appended under it. *)
Definition report : Type := Dict.dict (list string).

Module Book.

Definition add_record (self : AddressBook) (r : record) : AddressBook :=
  Dict.set self (name r) r.

Definition find (self : AddressBook) (nm : string) : option record :=
  Dict.get self nm.

Definition delete (self : AddressBook) (nm : string) : AddressBook :=
  match Dict.get self nm with
  | Some _ => Dict.del self nm
  | None => self
  end.

(** [birthdays_by_day[day_of_week].append(name)] on a [defaultdict(list)]. *)
Definition append_to (r : report) (day_of_week nm : string) : report :=
  match Dict.get r day_of_week with
  | Some l => Dict.set r day_of_week (l ++ [nm])%list
  | None => Dict.set r day_of_week [nm]
  end.

(** Lines 118-122: this year's birthday, or next year's when this year's
    has passed. *)
Definition rolled_birthday (today bday : date) : result date :=
  birthday_this_year <- replace_year bday (year today) ;;
  if lt birthday_this_year today
  then replace_year birthday_this_year (year today + 1)
  else Ok birthday_this_year.

(** Lines 124-127: a Saturday or Sunday is moved by
    [delta_days = 6 - weekday + 1], through [replace(day=birthday.day +
    delta_days)] on the day number of the stored birthday. *)
Definition weekend_shift (bday birthday_this_year : date) : result date :=
  if 4 <? weekday birthday_this_year then
    let delta_days := 6 - weekday birthday_this_year + 1 in
    replace_day birthday_this_year (day bday + delta_days)
  else Ok birthday_this_year.

(** Lines 118-127. *)
Definition shifted_birthday (today bday : date) : result date :=
  birthday_this_year <- rolled_birthday today bday ;;
  weekend_shift bday birthday_this_year.

(** Lines 116-133 for one contact with a birthday: [None] for [continue],
    otherwise the weekday name the contact is filed under. *)
Definition day_of_week_for (today : date) (bvalue : string)
  : result (option string) :=
  bday <- Birthday.to_datetime bvalue ;;
  birthday_this_year <- shifted_birthday today bday ;;
  let delta_days := sub_days birthday_this_year today in
  if 7 <=? delta_days then Ok None
  else
    d <- add_days today delta_days ;;
    Ok (Some (strftime_A d)).

(** The loop [for name in self.data]. *)
Fixpoint birthdays_loop (today : date) (entries : list (string * record))
    (birthdays_by_day : report) : result report :=
  match entries with
  | [] => Ok birthdays_by_day
  | (nm, r) :: rest =>
      match Rec.get_birthday r with
      | None => birthdays_loop today rest birthdays_by_day
      | Some b =>
          o <- day_of_week_for today b ;;
          match o with
          | None => birthdays_loop today rest birthdays_by_day
          | Some day_of_week =>
              birthdays_loop today rest
                (append_to birthdays_by_day day_of_week nm)
          end
      end
  end.

(** [get_birthdays_per_week(self)]. The method has no date parameter: it
    reads the clock, [today = datetime.today().date()]; [clock] is what that
    read returns. *)
Definition get_birthdays_per_week (clock : datetime) (self : AddressBook)
  : result report :=
  let today := dt_date clock in
  birthdays_loop today self [].

End Book.

(* ------------------------------------------------------------------ *)
(** ** String methods of the command layer *)

Module Str.

(** [c.isspace()] for an ASCII character, which is what [str.split()]
    splits on: tab to carriage return, the four separators 28 to 31, and
    the space. *)
Definition is_whitespace (c : ascii) : bool :=
  ((9 <=? Text.code c) && (Text.code c <=? 13))
  || ((28 <=? Text.code c) && (Text.code c <=? 32)).

(** The loop of [s.split()]: [cur] is the word being read. *)
Fixpoint split_from (s cur : string) : list string :=
  match s with
  | EmptyString =>
      match cur with EmptyString => [] | _ => [cur] end
  | String c s' =>
      if is_whitespace c then
        match cur with
        | EmptyString => split_from s' EmptyString
        | _ => cur :: split_from s' EmptyString
        end
      else split_from s' (cur ++ String c EmptyString)%string
  end.

(** [s.split()] *)
Definition split (s : string) : list string := split_from s EmptyString.

(** [c.lower()] for an ASCII character. *)
Definition lower_char (c : ascii) : ascii :=
  if (65 <=? Text.code c) && (Text.code c <=? 90)
  then ascii_of_N (N_of_ascii c + 32)
  else c.

(** [s.lower()] *)
Fixpoint lower (s : string) : string :=
  match s with
  | EmptyString => EmptyString
  | String c s' => String (lower_char c) (lower s')
  end.

(** [sep.join(l)] *)
Fixpoint join (sep : string) (l : list string) : string :=
  match l with
  | [] => EmptyString
  | [x] => x
  | x :: l' => (x ++ sep ++ join sep l')%string
  end.

Definition hexdigit (n : Z) : ascii :=
  if n <? 10 then ascii_of_N (Z.to_N (48 + n))
  else ascii_of_N (Z.to_N (97 + (n - 10))).

Fixpoint contains (c : ascii) (s : string) : bool :=
  match s with
  | EmptyString => false
  | String a s' => (Text.code a =? Text.code c) || contains c s'
  end.

(** The quote [repr] puts around [s]: the double quote when [s] holds a
    single quote and no double quote, the single quote otherwise. *)
Definition double_quote : ascii := ascii_of_N 34.

Definition repr_quote (s : string) : ascii :=
  if contains "'" s && negb (contains double_quote s)
  then double_quote else "'"%char.

(** One character inside [repr(s)], for ASCII text. *)
Definition repr_char (quote c : ascii) : string :=
  if (Text.code c =? Text.code quote) || (Text.code c =? 92)
  then String "\" (String c EmptyString)
  else if Text.code c =? 9 then "\t"
  else if Text.code c =? 10 then "\n"
  else if Text.code c =? 13 then "\r"
  else if (Text.code c <? 32) || (Text.code c =? 127)
  then String "\" (String "x"
         (String (hexdigit (Text.code c / 16))
            (String (hexdigit (Text.code c mod 16)) EmptyString)))
  else String c EmptyString.

Fixpoint repr_body (quote : ascii) (s : string) : string :=
  match s with
  | EmptyString => EmptyString
  | String c s' => (repr_char quote c ++ repr_body quote s')%string
  end.

(** [repr(s)] of a str *)
Definition repr (s : string) : string :=
  let q := repr_quote s in
  (String q (repr_body q s) ++ String q EmptyString)%string.

(** [str(l)] of a list of str, as an f-string formats it. *)
Definition repr_list (l : list string) : string :=
  ("[" ++ join ", " (map repr l) ++ "]")%string.

End Str.

(* ------------------------------------------------------------------ *)
(** ** Command handlers *)

Module Bot.

(** A handler runs against the one book of [main] and may raise after it
    has already changed the book: it returns its outcome and the book. *)
Definition cmd (A : Type) : Type := AddressBook -> result A * AddressBook.

Definition ret {A : Type} (a : A) : cmd A := fun book => (Ok a, book).

Definition raise {A : Type} (e : exn) : cmd A := fun book => (Raise e, book).

Definition cbind {A B : Type} (m : cmd A) (k : A -> cmd B) : cmd B :=
  fun book =>
    match m book with
    | (Ok a, book') => k a book'
    | (Raise e, book') => (Raise e, book')
    end.

Notation "x <~ m ;; k" := (cbind m (fun x => k))
  (at level 61, m at next level, right associativity).

(** [name, value = args]: ValueError unless there are exactly two. *)
Definition unpack2 (args : list string) : cmd (string * string) :=
  match args with
  | [a; b] => ret (a, b)
  | _ => raise ValueError
  end.

(** [book.find(name)], then [raise KeyError(name)] when it is None. The
    handler goes on with the object the book holds under [name]. *)
Definition find_or_raise (nm : string) : cmd record :=
  fun book =>
    match Book.find book nm with
    | Some r => (Ok r, book)
    | None => (Raise (KeyError nm), book)
    end.

(** A method call on the Record object the book holds under [nm]: the book
    refers to that object, so it sees what the method did to it. *)
Definition call (nm : string) (method : record -> result record) : cmd unit :=
  fun book =>
    match Book.find book nm with
    | Some r =>
        match method r with
        | Ok r' => (Ok tt, Dict.set book nm r')
        | Raise e => (Raise e, book)
        end
    | None => (Raise (KeyError nm), book)
    end.

(** The decorator: what [inner] returns for what [func] did. Exceptions it
    does not name pass through. *)
Definition input_error (func : cmd string) : cmd string :=
  fun book =>
    match func book with
    | (Ok s, book') => (Ok s, book')
    | (Raise ValueError, book') => (Ok "Give me name and phone please.", book')
    | (Raise (KeyError k), book') =>
        (Ok ("Contact '" ++ k ++ "' not found.")%string, book')
    | (Raise IndexError, book') => (Ok "Invalid command format.", book')
    | (Raise e, book') => (Raise e, book')
    end.

Definition add_contact (args : list string) : cmd string :=
  input_error (
    a <~ unpack2 args ;;
    let '(nm, phone) := a in
    fun book =>
      match (record <- Rec.init nm ;; Rec.add_phone record phone) with
      | Ok record => (Ok "Contact added.", Book.add_record book record)
      | Raise e => (Raise e, book)
      end).

Definition change_contact (args : list string) : cmd string :=
  input_error (
    a <~ unpack2 args ;;
    let '(nm, new_phone) := a in
    _ <~ find_or_raise nm ;;
    _ <~ call nm (fun record => Ok (Rec.remove_phones record)) ;;
    _ <~ call nm (fun record => Rec.add_phone record new_phone) ;;
    ret "Contact updated.").

Definition add_birthday (args : list string) : cmd string :=
  input_error (
    a <~ unpack2 args ;;
    let '(nm, bday) := a in
    _ <~ find_or_raise nm ;;
    _ <~ call nm (fun record => Rec.add_birthday record bday) ;;
    ret "Birthday added.").

(** [l[0]]: IndexError on an empty list. *)
Definition index0 {A : Type} (l : list A) : cmd A :=
  match l with
  | x :: _ => ret x
  | [] => raise IndexError
  end.

(** [if len(args) != 1: raise IndexError()] *)
Definition expect1 (args : list string) : cmd unit :=
  if negb (Z.of_nat (List.length args) =? 1) then raise IndexError else ret tt.

Definition show_phone (args : list string) : cmd string :=
  input_error (
    _ <~ expect1 args ;;
    nm <~ index0 args ;;
    record <~ find_or_raise nm ;;
    phone <~ index0 (phones record) ;;
    ret phone).

(** [f"{name}: {record.phones[0].value}" for name, record in book.items()] *)
Fixpoint show_all_lines (entries : list (string * record)) : cmd (list string) :=
  match entries with
  | [] => ret []
  | (nm, record) :: rest =>
      phone <~ index0 (phones record) ;;
      lines <~ show_all_lines rest ;;
      ret ((nm ++ ": " ++ phone)%string :: lines)
  end.

Definition newline : string := String (ascii_of_N 10) EmptyString.

Definition show_all : cmd string :=
  input_error (
    fun book =>
      match book with
      | [] => (Ok "No contacts found.", book)
      | _ =>
          (lines <~ show_all_lines book ;;
           ret (Str.join newline lines)) book
      end).

Definition show_birthday (args : list string) : cmd string :=
  input_error (
    _ <~ expect1 args ;;
    nm <~ index0 args ;;
    record <~ find_or_raise nm ;;
    match Rec.get_birthday record with
    | None => ret "Birthday is not set."
    | Some b => ret b
    end).

(** [birthdays(book)]: the lines it prints and what it returns, which is
    None after printing, or the message of [input_error] when
    [get_birthdays_per_week] raised and nothing was printed. *)
Definition birthdays (clock : datetime) (book : AddressBook)
  : list string * result (option string) :=
  match Book.get_birthdays_per_week clock book with
  | Ok [] => (["No birthdays in the next week."], Ok None)
  | Ok bdays =>
      ("Birthdays in the next week:"
         :: map (fun kv => (fst kv ++ ": " ++ Str.repr_list (snd kv))%string)
              bdays,
       Ok None)
  | Raise ValueError => ([], Ok (Some "Give me name and phone please."))
  | Raise (KeyError k) =>
      ([], Ok (Some ("Contact '" ++ k ++ "' not found.")%string))
  | Raise IndexError => ([], Ok (Some "Invalid command format."))
  | Raise e => ([], Raise e)
  end.

(** [parse_input]: the command word in lower case and the other words, or
    None for a line without a word (where [main] then finds no command). *)
Definition parse_input (user_input : string) : option string * list string :=
  match Str.split user_input with
  | cmd :: args => (Some (Str.lower cmd), args)
  | [] => (None, [])
  end.

(** [print(handler(args, book))]: one line, and the loop goes on. *)
Definition print_result (r : result string * AddressBook)
  : result (list string * option AddressBook) :=
  match r with
  | (Ok s, book) => Ok ([s], Some book)
  | (Raise e, _) => Raise e
  end.

(** One turn of the loop of [main] on the line read: the lines printed, and
    the book for the next turn or None after [break]. An exception that no
    handler caught ends the program and is the result. *)
Definition main_step (clock : datetime) (user_input : string)
    (book : AddressBook) : result (list string * option AddressBook) :=
  let '(command, args) := parse_input user_input in
  match command with
  | None => Ok (["Invalid command."], Some book)
  | Some command =>
      if String.eqb command "add" then print_result (add_contact args book)
      else if String.eqb command "change" then
        print_result (change_contact args book)
      else if String.eqb command "phone" then
        print_result (show_phone args book)
      else if String.eqb command "all" then print_result (show_all book)
      else if String.eqb command "add-birthday" then
        print_result (add_birthday args book)
      else if String.eqb command "show-birthday" then
        print_result (show_birthday args book)
      else if String.eqb command "birthdays" then
        match birthdays clock book with
        | (printed, Ok _) => Ok (printed, Some book)
        | (_, Raise e) => Raise e
        end
      else if String.eqb command "hello" then
        Ok (["How can I help you?"], Some book)
      else if String.eqb command "close" || String.eqb command "exit" then
        Ok (["Good bye!"], None)
      else Ok (["Invalid command."], Some book)
  end.

(** How a run of [main] ends. *)
Inductive run : Type :=
| Stopped (printed : list string)
    (* [break] after close or exit *)
| Starved (printed : list string) (book : AddressBook)
    (* [input()] finds no line left and raises EOFError, which nothing
       catches; [book] is the book at that point *)
| Failed (printed : list string) (e : exn).
    (* an exception of a handler that nothing caught *)

(** The loop of [main] on the lines [input()] returns in turn, one clock
    read per line, with the lines printed by [print] (the prompt of
    [input()] aside). *)
Fixpoint main_loop (inputs : list (datetime * string)) (book : AddressBook)
  : run :=
  match inputs with
  | [] => Starved [] book
  | (clock, line) :: rest =>
      match main_step clock line book with
      | Raise e => Failed [] e
      | Ok (printed, None) => Stopped printed
      | Ok (printed, Some book') =>
          match main_loop rest book' with
          | Stopped p => Stopped (printed ++ p)%list
          | Starved p b => Starved (printed ++ p)%list b
          | Failed p e => Failed (printed ++ p)%list e
          end
      end
  end.

End Bot.

(* ------------------------------------------------------------------ *)
(** ** Sequences of store and record operations *)

(** The operations of the store and of the records it holds. A record
    operation names the contact it is called on; an operation that raises,
    or whose contact is absent, leaves the book as it was. *)
Inductive op : Type :=
| OpAdd (nm phone : string)                (* Record(nm), add_phone, add_record *)
| OpDelete (nm : string)                   (* book.delete(nm) *)
| OpAddPhone (nm phone : string)           (* book.find(nm).add_phone(phone) *)
| OpRemovePhone (nm phone : string)        (* book.find(nm).remove_phone(phone) *)
| OpEditPhone (nm old_phone new_phone : string)
| OpAddBirthday (nm bday : string).        (* book.find(nm).add_birthday(bday) *)

Definition apply_op (o : op) (book : AddressBook) : AddressBook :=
  match o with
  | OpAdd nm phone => snd (Bot.add_contact [nm; phone] book)
  | OpDelete nm => Book.delete book nm
  | OpAddPhone nm phone =>
      snd (Bot.call nm (fun r => Rec.add_phone r phone) book)
  | OpRemovePhone nm phone =>
      snd (Bot.call nm (fun r => Ok (Rec.remove_phone r phone)) book)
  | OpEditPhone nm old_phone new_phone =>
      snd (Bot.call nm (fun r => Rec.edit_phone r old_phone new_phone) book)
  | OpAddBirthday nm bday =>
      snd (Bot.call nm (fun r => Rec.add_birthday r bday) book)
  end.

Definition run_ops (ops : list op) (book : AddressBook) : AddressBook :=
  fold_left (fun b o => apply_op o b) ops book.

(** The store invariant of the data model, as a check that can be run. *)
Definition phone_ok (p : string) : bool :=
  (String.length p =? 10)%nat && Text.all_digits p.

Definition birthday_ok (b : string) : bool :=
  is_ok (Strptime.strptime b).

Definition record_ok (r : record) : bool :=
  negb (String.eqb (name r) EmptyString)
  && forallb phone_ok (phones r)
  && match birthday r with Some b => birthday_ok b | None => true end.

Definition store_ok (book : AddressBook) : bool :=
  forallb (fun kv => record_ok (snd kv)) book.

(** A name is in the report when some weekday's list holds it. *)
Definition reported (rep : report) (nm : string) : Prop :=
  exists day_of_week l, In (day_of_week, l) rep /\ In nm l.

(** The candidate date of a stored birthday, weekend shift included. *)
Definition candidate (today : date) (bvalue : string) : result date :=
  bday <- Birthday.to_datetime bvalue ;;
  Book.shifted_birthday today bday.

(** A date object as the library builds them. *)
Definition valid_date (d : date) : Prop :=
  check_date_fields (year d) (month d) (day d) = true.

(* ------------------------------------------------------------------ *)
(** ** What a regular expression matches *)

(** [rmatches r m g g']: the text [m] is matched by [r], which turns the
    groups [g] into [g']. *)
Inductive rmatches : Strptime.regex -> string -> Strptime.groups ->
                     Strptime.groups -> Prop :=
| M_chr cs a g :
    Strptime.cset_mem cs a = true ->
    rmatches (Strptime.Chr cs) (String a EmptyString) g g
| M_cat r1 r2 m1 m2 g g1 g2 :
    rmatches r1 m1 g g1 -> rmatches r2 m2 g1 g2 ->
    rmatches (Strptime.Cat r1 r2) (m1 ++ m2)%string g g2
| M_alt_l r1 r2 m g g' :
    rmatches r1 m g g' -> rmatches (Strptime.Alt r1 r2) m g g'
| M_alt_r r1 r2 m g g' :
    rmatches r2 m g g' -> rmatches (Strptime.Alt r1 r2) m g g'
| M_grp name r m g g' :
    rmatches r m g g' -> rmatches (Strptime.Grp name r) m g ((name, m) :: g').

(* ------------------------------------------------------------------ *)
(** ** Birthday texts *)

(** [s] is two decimal digits that read as [v]. *)
Definition two_digits (s : string) (v : Z) : Prop :=
  exists a b,
    s = String a (String b EmptyString) /\
    Text.is_digit a = true /\ Text.is_digit b = true /\
    v = 10 * Text.digit_val a + Text.digit_val b.

(** [s] is one decimal digit that reads as [v]. *)
Definition one_digit (s : string) (v : Z) : Prop :=
  exists a,
    s = String a EmptyString /\ Text.is_digit a = true /\ v = Text.digit_val a.

(** [s] is four decimal digits that read as [v]. *)
Definition four_digits (s : string) (v : Z) : Prop :=
  exists a b c d,
    s = String a (String b (String c (String d EmptyString))) /\
    Text.is_digit a = true /\ Text.is_digit b = true /\
    Text.is_digit c = true /\ Text.is_digit d = true /\
    v = 1000 * Text.digit_val a + 100 * Text.digit_val b
        + 10 * Text.digit_val c + Text.digit_val d.

(** The day field that [strptime] takes for %d: 01 to 31 in two digits, or
    1 to 9 in one digit, which a single space may precede. *)
Definition day_text (s : string) (d : Z) : Prop :=
  (two_digits s d /\ 1 <= d <= 31)
  \/ (one_digit s d /\ 1 <= d)
  \/ (exists s', s = String " " s' /\ one_digit s' d /\ 1 <= d).

(** The month field for %m: 01 to 12 in two digits, or 1 to 9 in one. *)
Definition month_text (s : string) (m : Z) : Prop :=
  (two_digits s m /\ 1 <= m <= 12) \/ (one_digit s m /\ 1 <= m).

(** day '.' month '.' year *)
Definition dotted (ds ms ys : string) : string :=
  (ds ++ "." ++ ms ++ "." ++ ys)%string.

(** The texts [validate_birthday] accepts: a day field, a month field and a
    four-digit year, separated by dots, that name a day of the calendar. *)
Definition lenient_birthday (value : string) : Prop :=
  exists ds ms ys d m y,
    value = dotted ds ms ys /\
    day_text ds d /\ month_text ms m /\ four_digits ys y /\
    check_date_fields y m d = true.

(** The strict pattern DD.MM.YYYY: two-digit day, two-digit month,
    four-digit year, a day of the calendar. *)
Definition strict_birthday (value : string) : Prop :=
  exists ds ms ys d m y,
    value = dotted ds ms ys /\
    two_digits ds d /\ two_digits ms m /\ four_digits ys y /\
    check_date_fields y m d = true.

(** An operation that passes only validated phone text to the records:
    every operation but an [edit_phone] whose new text is no phone. *)
Definition op_validated (o : op) : bool :=
  match o with
  | OpEditPhone _ _ new_phone => Phone.validate_phone new_phone
  | _ => true
  end.

(* ------------------------------------------------------------------ *)
(** ** Scenarios *)

(** A clock read at midnight of the given day. *)
Definition at_midnight (y m d : Z) : datetime := mkdatetime (mkdate y m d) 0.

(** Monday 2024-06-03, the reference day of the scheduler scenarios. *)
Definition monday_2024_06_03 : datetime := at_midnight 2024 6 3.

(** Monday 2024-06-24: the Sunday of that week is the last day of June. *)
Definition monday_2024_06_24 : datetime := at_midnight 2024 6 24.

(** Monday 2023-06-05, in a year without a 29th of February. *)
Definition monday_2023_06_05 : datetime := at_midnight 2023 6 5.

Definition contact (nm phone bday : string) : string * record :=
  (nm, mkRecord nm [phone] (Some bday)).

(** Scenarios A to D of the scheduler in one book. *)
Definition book_scenarios : AddressBook :=
  [ contact "Ann" "0501111111" "05.06.1990";
    contact "Bob" "0502222222" "08.06.1995";
    contact "Cid" "0503333333" "02.06.1980";
    ("Dan", mkRecord "Dan" ["0504444444"] None) ].

Definition book_bob : AddressBook := [ contact "Bob" "0502222222" "08.06.1995" ].

(** A birthday on the last day of June. *)
Definition book_month_end : AddressBook :=
  [ contact "Eve" "0505555555" "30.06.1990" ].

(** A birthday on the 29th of February. *)
Definition book_leap_day : AddressBook :=
  [ contact "Fay" "0506666666" "29.02.2000" ].

(** [nm] is in the list the report keeps under [day_of_week]. *)
Definition filed (rep : report) (day_of_week nm : string) : Prop :=
  exists l, In (day_of_week, l) rep /\ In nm l.

(** The names of the days from Monday to Friday. *)
Definition working_days : list string :=
  ["Monday"; "Tuesday"; "Wednesday"; "Thursday"; "Friday"]%string.

(** Every record of the book is kept under its own name. *)
Definition keyed_by_name (book : AddressBook) : Prop :=
  forall k r, In (k, r) book -> name r = k.

(** A record stored by the commands of [main] has a phone. *)
Definition has_phone (r : record) : bool :=
  match phones r with [] => false | _ => true end.

(** A line without a word: every character is white space. *)
Fixpoint blank (s : string) : bool :=
  match s with
  | EmptyString => true
  | String c s' => Str.is_whitespace c && blank s'
  end.

(** A record as the validators leave it: a name that is not empty, phones
    that [validate_phone] accepts, a birthday that [validate_birthday]
    accepts. *)
Definition record_valid (r : record) : bool :=
  negb (String.eqb (name r) EmptyString)
  && forallb Phone.validate_phone (phones r)
  && match birthday r with
     | Some b => Birthday.validate_birthday b
     | None => true
     end.

Definition store_valid (book : AddressBook) : bool :=
  forallb (fun kv => record_valid (snd kv)) book.

(** What the invariants of the book say together: every record as the
    validators leave it, no name held twice, every record under its own
    name. *)
Definition book_inv (book : AddressBook) : Prop :=
  store_valid book = true /\ NoDup (Dict.keys book) /\ keyed_by_name book.

(** A text of ASCII characters: every code is below 128. *)
Fixpoint ascii_text (s : string) : bool :=
  match s with
  | EmptyString => true
  | String c s' => (Text.code c <? 128) && ascii_text s'
  end.


(** Tuesday 2024-03-26: the Sunday of that week is the last day of March. *)
Definition tuesday_2024_03_26 : datetime := at_midnight 2024 3 26.

(** A birthday two days ahead, and one on the last day of June. *)
Definition book_zed_eve : AddressBook :=
  [ contact "Zed" "0507777777" "26.06.1990";
    contact "Eve" "0505555555" "30.06.1990" ].

(** A birthday on the last day of March. *)
Definition book_sue : AddressBook :=
  [ contact "Sue" "0508888888" "31.03.1992" ].



(** The length of a year in days. *)
Definition days_in_year (y : Z) : Z := if is_leap y then 366 else 365.

(* ------------------------------------------------------------------ *)
(** * Properties *)

(** ** The calendar *)



Lemma is_leap_cases (y : Z) :
  (is_leap y = true /\ y mod 4 = 0 /\ (y mod 100 <> 0 \/ y mod 400 = 0))
  \/ (is_leap y = false /\ (y mod 4 <> 0 \/ (y mod 100 = 0 /\ y mod 400 <> 0))).
Proof.
  unfold is_leap.
  destruct (Z.eqb_spec (y mod 4) 0), (Z.eqb_spec (y mod 100) 0),
    (Z.eqb_spec (y mod 400) 0); simpl; intuition lia.
Qed.

Lemma days_before_year_succ (y : Z) :
  days_before_year (y + 1) = days_before_year y + days_in_year y.
Proof.
  unfold days_before_year, days_in_year.
  destruct (is_leap_cases y) as [(-> & H4 & H)|(-> & H)];
    replace (y + 1 - 1) with (y - 1 + 1) by lia;
    Z.div_mod_to_equations; lia.
Qed.

Lemma days_in_year_pos (y : Z) : 365 <= days_in_year y <= 366.
Proof. unfold days_in_year; destruct (is_leap y); lia. Qed.

Lemma days_before_year_mono (y1 y2 : Z) :
  y1 <= y2 -> days_before_year y1 <= days_before_year y2.
Proof.
  intros H. replace y2 with (y1 + Z.of_nat (Z.to_nat (y2 - y1))) by lia.
  induction (Z.to_nat (y2 - y1)) as [|k IH].
  - rewrite Z.add_0_r. lia.
  - rewrite Nat2Z.inj_succ, <- Z.add_1_r, Z.add_assoc, days_before_year_succ.
    pose proof (days_in_year_pos (y1 + Z.of_nat k)). lia.
Qed.


Lemma check_date_fields_spec (y m d : Z) :
  check_date_fields y m d = true <->
  1 <= y <= 9999 /\ 1 <= m <= 12 /\ 1 <= d <= days_in_month y m.
Proof.
  unfold check_date_fields, MINYEAR, MAXYEAR.
  rewrite !andb_true_iff, !Z.leb_le. lia.
Qed.

Lemma month_cases (m : Z) :
  1 <= m <= 12 ->
  m = 1 \/ m = 2 \/ m = 3 \/ m = 4 \/ m = 5 \/ m = 6 \/
  m = 7 \/ m = 8 \/ m = 9 \/ m = 10 \/ m = 11 \/ m = 12.
Proof. lia. Qed.

Ltac month_split m H :=
  destruct (month_cases m H) as
    [->|[->|[->|[->|[->|[->|[->|[->|[->|[->|[->| ->]]]]]]]]]]].

(** The day of the year of a valid date lies within the year. *)
Lemma day_of_year_bounds (y m d : Z) :
  1 <= m <= 12 -> 1 <= d <= days_in_month y m ->
  1 <= days_before_month y m + d <= days_in_year y.
Proof.
  intros Hm Hd. unfold days_before_month, days_in_month, days_in_year in *.
  month_split m Hm; destruct (is_leap y); cbn -[Z.add] in *; lia.
Qed.

(** Within one year, an earlier month ends before a later one begins. *)
Lemma days_before_month_next (y m1 m2 d1 : Z) :
  1 <= m1 -> m1 < m2 -> m2 <= 12 -> d1 <= days_in_month y m1 ->
  days_before_month y m1 + d1 <= days_before_month y m2.
Proof.
  intros H1 H12 H2 Hd. unfold days_before_month, days_in_month in *.
  assert (Hm1 : 1 <= m1 <= 12) by lia. assert (Hm2 : 1 <= m2 <= 12) by lia.
  month_split m1 Hm1; month_split m2 Hm2; try lia;
    destruct (is_leap y); cbn -[Z.add] in *; lia.
Qed.

Lemma lt_spec (a b : date) :
  lt a b = true <->
  year a < year b \/
  (year a = year b /\
   (month a < month b \/ (month a = month b /\ day a < day b))).
Proof.
  unfold lt.
  rewrite !orb_true_iff, !andb_true_iff, !orb_true_iff, !andb_true_iff,
    !Z.ltb_lt, !Z.eqb_eq. tauto.
Qed.

Lemma valid_date_spec (d : date) :
  valid_date d <->
  1 <= year d <= 9999 /\ 1 <= month d <= 12 /\
  1 <= day d <= days_in_month (year d) (month d).
Proof. apply check_date_fields_spec. Qed.

(** The tuple order of dates is the order of their ordinals. *)
Lemma toordinal_lt (a b : date) :
  valid_date a -> valid_date b -> lt a b = true -> toordinal a < toordinal b.
Proof.
  intros Ha Hb H. apply valid_date_spec in Ha, Hb. apply lt_spec in H.
  destruct Ha as (Hya & Hma & Hda), Hb as (Hyb & Hmb & Hdb).
  unfold toordinal, ymd2ord.
  destruct H as [Hy|(Hy & [Hm|(Hm & Hd)])].
  - pose proof (day_of_year_bounds _ _ _ Hma Hda).
    pose proof (day_of_year_bounds _ _ _ Hmb Hdb).
    pose proof (days_before_year_succ (year a)).
    pose proof (days_before_year_mono (year a + 1) (year b)). lia.
  - rewrite Hy in *.
    pose proof (days_before_month_next (year b) (month a) (month b) (day a)).
    lia.
  - rewrite Hy, Hm. lia.
Qed.

Lemma toordinal_le (a b : date) :
  valid_date a -> valid_date b -> lt a b = false -> toordinal b <= toordinal a.
Proof.
  intros Ha Hb H.
  destruct (lt b a) eqn:Hba.
  - apply Z.lt_le_incl, toordinal_lt; assumption.
  - assert (a = b) as ->; [|lia].
    assert (Hn1 : ~ (lt a b = true)) by congruence.
    assert (Hn2 : ~ (lt b a = true)) by congruence.
    rewrite lt_spec in Hn1, Hn2.
    destruct a, b; simpl in *. f_equal; lia.
Qed.

Lemma toordinal_range (d : date) :
  valid_date d -> 1 <= toordinal d <= MAXORDINAL.
Proof.
  intros Hd. pose proof Hd as Hv. apply valid_date_spec in Hd.
  destruct Hd as (Hy & Hm & Hdd).
  pose proof (day_of_year_bounds _ _ _ Hm Hdd) as Hb.
  unfold toordinal, ymd2ord.
  pose proof (days_before_year_mono 1 (year d)) as H1.
  pose proof (days_before_year_mono (year d + 1) 10000) as H2.
  rewrite days_before_year_succ in H2.
  change (days_before_year 1) with 0 in H1.
  change (days_before_year 10000) with 3652059 in H2.
  unfold MAXORDINAL. lia.
Qed.

(** The month and day that [ord2ymd] finds for day [n] (from 0) of a year. *)
Lemma month_day_in_year (leapyear : bool) (n : Z) :
  0 <= n < 365 + (if leapyear then 1 else 0) ->
  let month := Z.shiftr (n + 50) 5 in
  let preceding :=
    DAYS_BEFORE_MONTH month + (if (2 <? month) && leapyear then 1 else 0) in
  let '(m, d) :=
    if n <? preceding then
      (month - 1,
       n - (preceding
            - (DAYS_IN_MONTH (month - 1)
               + (if (month - 1 =? 2) && leapyear then 1 else 0))) + 1)
    else (month, n - preceding + 1) in
  1 <= m <= 12 /\
  DAYS_BEFORE_MONTH m + (if (2 <? m) && leapyear then 1 else 0) + d = n + 1 /\
  1 <= d <= DAYS_IN_MONTH m + (if (m =? 2) && leapyear then 1 else 0).
Proof.
  intros Hn. cbv zeta. rewrite Z.shiftr_div_pow2 by lia. change (2 ^ 5) with 32.
  assert (Hm : 1 <= (n + 50) / 32 <= 13) by (destruct leapyear; Z.div_mod_to_equations; lia).
  remember ((n + 50) / 32) as mo eqn:Hmo.
  assert (Hlo : 32 * mo - 50 <= n < 32 * mo - 18) by (subst mo; Z.div_mod_to_equations; lia).
  clear Hmo.
  assert (Hc : mo = 1 \/ mo = 2 \/ mo = 3 \/ mo = 4 \/ mo = 5 \/ mo = 6 \/ mo = 7
               \/ mo = 8 \/ mo = 9 \/ mo = 10 \/ mo = 11 \/ mo = 12 \/ mo = 13) by lia.
  destruct Hc as [->|[->|[->|[->|[->|[->|[->|[->|[->|[->|[->|[->| ->]]]]]]]]]]]];
    destruct leapyear;
    repeat match goal with
      | |- context [Z.pos ?a - 1] =>
          let v := eval vm_compute in (Z.pos a - 1) in
          change (Z.pos a - 1) with v
      end;
    cbn -[Z.add Z.sub Z.ltb] in *;
    match goal with |- context [n <? ?p] => destruct (Z.ltb_spec n p) end;
    cbn -[Z.add Z.sub] in *; lia.
Qed.

(** The year that [ord2ymd] finds: the quotients of the 400-, 100-, 4- and
    1-year cycles add up to the days before that year. *)
Lemma year_of_ordinal (n q400 q100 q4 q1 r400 r100 r4 r1 : Z) :
  0 <= n ->
  n = 146097 * q400 + r400 -> 0 <= r400 < 146097 ->
  r400 = 36524 * q100 + r100 -> 0 <= r100 < 36524 ->
  r100 = 1461 * q4 + r4 -> 0 <= r4 < 1461 ->
  r4 = 365 * q1 + r1 -> 0 <= r1 < 365 ->
  let y := q400 * 400 + 1 + (q100 * 100 + q4 * 4 + q1) in
  if (q1 =? 4) || (q100 =? 4) then
    is_leap (y - 1) = true /\ days_before_year (y - 1) + 366 = n + 1
  else
    is_leap y = ((q1 =? 3) && (negb (q4 =? 24) || (q100 =? 3))) /\
    days_before_year y + r1 = n.
Proof.
  intros Hn E400 B400 E100 B100 E4 B4 E1 B1 y. subst y.
  assert (0 <= q400) by lia.
  assert (0 <= q100 <= 4) by lia.
  assert (0 <= q4 <= 24) by lia.
  assert (0 <= q1 <= 4) by lia.
  destruct (Z.eqb_spec q1 4) as [Hq1|Hq1]; [|destruct (Z.eqb_spec q100 4) as [Hq100|Hq100]];
    cbn [orb].
  - split.
    + destruct (is_leap_cases (q400 * 400 + 1 + (q100 * 100 + q4 * 4 + q1) - 1))
        as [(-> & _)|(_ & H')]; [reflexivity|].
      exfalso. Z.div_mod_to_equations. lia.
    + unfold days_before_year. Z.div_mod_to_equations. lia.
  - split.
    + destruct (is_leap_cases (q400 * 400 + 1 + (q100 * 100 + q4 * 4 + q1) - 1))
        as [(-> & _)|(_ & H')]; [reflexivity|].
      exfalso. Z.div_mod_to_equations. lia.
    + unfold days_before_year. Z.div_mod_to_equations. lia.
  - split.
    + destruct (Z.eqb_spec q1 3), (Z.eqb_spec q4 24), (Z.eqb_spec q100 3);
        cbn [andb orb negb];
        destruct (is_leap_cases (q400 * 400 + 1 + (q100 * 100 + q4 * 4 + q1)))
          as [(-> & H4 & H')|(-> & H')]; try reflexivity;
        exfalso; Z.div_mod_to_equations; lia.
    + unfold days_before_year. Z.div_mod_to_equations. lia.
Qed.

Lemma year_le_of_days_before (y n : Z) :
  days_before_year y <= n -> n < MAXORDINAL -> y <= 9999.
Proof.
  intros H1 H2. destruct (Z.le_gt_cases y 9999) as [|Hy]; [assumption|].
  pose proof (days_before_year_mono 10000 y ltac:(lia)) as Hm.
  change (days_before_year 10000) with 3652059 in Hm.
  unfold MAXORDINAL in H2. lia.
Qed.

(** [ord2ymd] returns a date of the calendar, and the one with ordinal [n]. *)
Lemma ord2ymd_spec (n0 : Z) :
  1 <= n0 <= MAXORDINAL ->
  let '(y, m, d) := ord2ymd n0 in
  check_date_fields y m d = true /\ ymd2ord y m d = n0.
Proof.
  intros Hn0. unfold ord2ymd, DI400Y, DI100Y, DI4Y. cbv zeta.
  set (n := n0 - 1).
  set (q400 := n / 146097). set (r400 := n mod 146097).
  set (q100 := r400 / 36524). set (r100 := r400 mod 36524).
  set (q4 := r100 / 1461). set (r4 := r100 mod 1461).
  set (q1 := r4 / 365). set (r1 := r4 mod 365).
  assert (Hn : 0 <= n < MAXORDINAL) by (subst n; lia).
  assert (En : n0 = n + 1) by (subst n; lia).
  assert (E400 : n = 146097 * q400 + r400) by (apply Z.div_mod; lia).
  assert (B400 : 0 <= r400 < 146097) by (apply Z.mod_pos_bound; lia).
  assert (E100 : r400 = 36524 * q100 + r100) by (apply Z.div_mod; lia).
  assert (B100 : 0 <= r100 < 36524) by (apply Z.mod_pos_bound; lia).
  assert (E4 : r100 = 1461 * q4 + r4) by (apply Z.div_mod; lia).
  assert (B4 : 0 <= r4 < 1461) by (apply Z.mod_pos_bound; lia).
  assert (E1 : r4 = 365 * q1 + r1) by (apply Z.div_mod; lia).
  assert (B1 : 0 <= r1 < 365) by (apply Z.mod_pos_bound; lia).
  pose proof (year_of_ordinal n q400 q100 q4 q1 r400 r100 r4 r1
                ltac:(lia) E400 B400 E100 B100 E4 B4 E1 B1) as HY.
  cbv zeta in HY.
  clearbody n q400 r400 q100 r100 q4 r4 q1 r1.
  set (y := q400 * 400 + 1 + (q100 * 100 + q4 * 4 + q1)) in *.
  destruct ((q1 =? 4) || (q100 =? 4)) eqn:Hdec.
  - destruct HY as (Hleap & Hdays).
    assert (1 <= y - 1).
    { apply orb_true_iff in Hdec. rewrite !Z.eqb_eq in Hdec. subst y. lia. }
    clearbody y.
    pose proof (year_le_of_days_before (y - 1) n ltac:(lia) ltac:(lia)).
    split.
    + apply check_date_fields_spec. unfold days_in_month. cbn. lia.
    + unfold ymd2ord, days_before_month. rewrite Hleap. cbn -[Z.add]. lia.
  - destruct HY as (Hleap & Hdays).
    pose proof (month_day_in_year (is_leap y) r1) as HM.
    cbv zeta in HM. rewrite <- Hleap.
    assert (1 <= y) by (subst y; lia).
    clearbody y.
    pose proof (year_le_of_days_before y n ltac:(lia) ltac:(lia)).
    match type of HM with
    | _ -> let '(_, _) := if ?c then _ else _ in _ => destruct c
    end;
      (destruct HM as (Hm & Hsum & Hd); [destruct (is_leap y); lia|];
       split;
       [ apply check_date_fields_spec; unfold days_in_month;
         repeat split; try lia;
         match goal with
         | |- context [if (?m =? 2) && ?l then _ else _] =>
             destruct (Z.eqb_spec m 2) as [E2|E2];
             [rewrite E2 in *; destruct l; cbn -[Z.add Z.sub] in *; lia
             |cbn [andb] in *; lia]
         end
       | unfold ymd2ord, days_before_month; lia ]).
Qed.

Lemma toordinal_fromordinal (n : Z) :
  1 <= n <= MAXORDINAL ->
  valid_date (fromordinal n) /\ toordinal (fromordinal n) = n.
Proof.
  intros Hn. pose proof (ord2ymd_spec n Hn) as H.
  unfold fromordinal, valid_date, toordinal.
  destruct (ord2ymd n) as [[y m] d]. exact H.
Qed.
Import Book.

(** ** The candidate date *)

Lemma toordinal_inj (a b : date) :
  valid_date a -> valid_date b -> toordinal a = toordinal b -> a = b.
Proof.
  intros Ha Hb E.
  destruct (lt a b) eqn:Hab.
  - pose proof (toordinal_lt a b Ha Hb Hab). lia.
  - destruct (lt b a) eqn:Hba.
    + pose proof (toordinal_lt b a Hb Ha Hba). lia.
    + assert (Hn1 : ~ (lt a b = true)) by congruence.
      assert (Hn2 : ~ (lt b a = true)) by congruence.
      rewrite lt_spec in Hn1, Hn2.
      destruct a, b; simpl in *. f_equal; lia.
Qed.

Lemma new_inv (y m d : Z) (x : date) :
  new y m d = Ok x -> x = mkdate y m d /\ valid_date x.
Proof.
  unfold new, valid_date. destruct (check_date_fields y m d) eqn:E; [|discriminate].
  intros [= <-]. split; [reflexivity|exact E].
Qed.

Lemma bind_inv {A B : Type} (m : result A) (k : A -> result B) (b : B) :
  bind m k = Ok b -> exists a, m = Ok a /\ k a = Ok b.
Proof. destruct m as [a|e]; simpl; [eauto|discriminate]. Qed.

Lemma weekday_range (d : date) : 0 <= weekday d <= 6.
Proof. unfold weekday. pose proof (Z.mod_pos_bound (toordinal d + 6) 7). lia. Qed.

(** The rolled birthday keeps the month and day of the stored birthday and
    is not before today. *)
Lemma rolled_birthday_spec (today bday c : date) :
  valid_date today ->
  rolled_birthday today bday = Ok c ->
  valid_date c /\ month c = month bday /\ day c = day bday /\
  (year c = year today \/ year c = year today + 1) /\
  toordinal today <= toordinal c.
Proof.
  intros Ht H. unfold rolled_birthday in H.
  apply bind_inv in H as (c0 & H0 & H).
  apply new_inv in H0 as (-> & V0).
  destruct (lt _ today) eqn:Hlt.
  - apply new_inv in H as (-> & V1). cbn in *.
    repeat split; try assumption; try lia.
    apply Z.lt_le_incl, toordinal_lt; try assumption.
    apply lt_spec. cbn. lia.
  - injection H as <-. cbn.
    repeat split; try assumption; try lia.
    apply toordinal_le; assumption.
Qed.

(** A shift that succeeds adds the days up to Monday to the ordinal. *)
Lemma weekend_shift_spec (bday c0 c : date) :
  valid_date c0 -> day c0 = day bday ->
  weekend_shift bday c0 = Ok c ->
  valid_date c /\
  toordinal c =
    toordinal c0 + (if 4 <? weekday c0 then 7 - weekday c0 else 0).
Proof.
  intros V0 Hd H. unfold weekend_shift in H.
  remember (weekday c0) as w eqn:Hw. clear Hw.
  destruct (4 <? w).
  - apply new_inv in H as (-> & V). split; [assumption|].
    unfold toordinal, ymd2ord. cbn [year month day]. lia.
  - injection H as <-. split; [assumption|lia].
Qed.

Lemma shifted_birthday_spec (today bday c : date) :
  valid_date today ->
  shifted_birthday today bday = Ok c ->
  valid_date c /\ toordinal today <= toordinal c.
Proof.
  intros Ht H. unfold shifted_birthday in H.
  apply bind_inv in H as (c0 & H0 & H).
  apply rolled_birthday_spec in H0 as (V0 & _ & Hd & _ & Hle); [|assumption].
  apply weekend_shift_spec in H as (V & E); try assumption.
  split; [assumption|].
  pose proof (weekday_range c0). destruct (4 <? weekday c0); lia.
Qed.

(** [today + timedelta(days=(c - today).days)] is [c]. *)
Lemma add_days_sub_days (today c : date) :
  valid_date c -> add_days today (sub_days c today) = Ok c.
Proof.
  intros V. unfold add_days, sub_days.
  replace (toordinal today + (toordinal c - toordinal today))
    with (toordinal c) by lia.
  pose proof (toordinal_range c V) as R.
  destruct (Z.ltb_spec 0 (toordinal c)); [|lia].
  destruct (Z.leb_spec (toordinal c) MAXORDINAL); [|lia].
  cbn [andb]. f_equal.
  destruct (toordinal_fromordinal (toordinal c) R) as (V' & E).
  apply toordinal_inj; assumption.
Qed.

Lemma candidate_inv (today : date) (bvalue : string) (c : date) :
  candidate today bvalue = Ok c ->
  exists bday, Birthday.to_datetime bvalue = Ok bday
               /\ Book.shifted_birthday today bday = Ok c.
Proof. apply bind_inv. Qed.

(** What the loop body does with a contact whose candidate date exists:
    [continue] from seven days on, otherwise the weekday name of the
    candidate. *)
Lemma day_of_week_for_candidate (today : date) (bvalue : string) (c : date) :
  valid_date today ->
  candidate today bvalue = Ok c ->
  0 <= sub_days c today /\
  Book.day_of_week_for today bvalue =
    Ok (if 7 <=? sub_days c today then None else Some (strftime_A c)).
Proof.
  intros Ht H. apply candidate_inv in H as (bday & Hb & Hs).
  pose proof (shifted_birthday_spec _ _ _ Ht Hs) as (V & Hle).
  split; [unfold sub_days; lia|].
  unfold Book.day_of_week_for. rewrite Hb. cbn [bind]. rewrite Hs. cbn [bind].
  destruct (7 <=? sub_days c today); [reflexivity|].
  rewrite add_days_sub_days by assumption. reflexivity.
Qed.

(** Without a candidate date the loop body raises. *)
Lemma day_of_week_for_raises (today : date) (bvalue : string) (e : exn) :
  candidate today bvalue = Raise e ->
  Book.day_of_week_for today bvalue = Raise e.
Proof.
  unfold candidate, Book.day_of_week_for.
  destruct (Birthday.to_datetime bvalue) as [bday|e']; cbn [bind].
  - destruct (Book.shifted_birthday today bday); cbn [bind]; intros H;
      [discriminate H|congruence].
  - intros H; congruence.
Qed.

(** ** Dictionaries *)

Lemma get_set_same {V : Type} (d : Dict.dict V) (k : string) (v : V) :
  Dict.get (Dict.set d k v) k = Some v.
Proof.
  induction d as [|[k0 v0] d IH]; cbn.
  - rewrite String.eqb_refl. reflexivity.
  - destruct (String.eqb_spec k0 k) as [->|Hne]; cbn.
    + rewrite String.eqb_refl. reflexivity.
    + destruct (String.eqb_spec k0 k); [contradiction|exact IH].
Qed.

Lemma get_set_other {V : Type} (d : Dict.dict V) (k k' : string) (v : V) :
  k' <> k -> Dict.get (Dict.set d k v) k' = Dict.get d k'.
Proof.
  intros Hne. induction d as [|[k0 v0] d IH]; cbn.
  - destruct (String.eqb_spec k k'); [congruence|reflexivity].
  - destruct (String.eqb_spec k0 k) as [->|Hk]; cbn.
    + destruct (String.eqb_spec k k'); [congruence|reflexivity].
    + rewrite IH. reflexivity.
Qed.

Lemma get_In {V : Type} (d : Dict.dict V) (k : string) (v : V) :
  Dict.get d k = Some v -> In (k, v) d.
Proof.
  induction d as [|[k0 v0] d IH]; cbn; [discriminate|].
  destruct (String.eqb_spec k0 k) as [->|Hne].
  - intros [= ->]. left; reflexivity.
  - intros H. right. exact (IH H).
Qed.

(** In a dict, where no key occurs twice, the entries are what [get] finds. *)
Lemma In_get {V : Type} (d : Dict.dict V) (k : string) (v : V) :
  NoDup (Dict.keys d) -> In (k, v) d -> Dict.get d k = Some v.
Proof.
  induction d as [|[k0 v0] d IH]; cbn; [contradiction|].
  intros Hnd [H|H]; inversion Hnd as [|? ? Hnot Hnd']; subst.
  - injection H as -> ->. rewrite String.eqb_refl. reflexivity.
  - destruct (String.eqb_spec k0 k) as [->|Hne].
    + exfalso. apply Hnot. unfold Dict.keys.
      change k with (fst (k, v)). apply in_map. exact H.
    + apply IH; assumption.
Qed.

Lemma In_set_inv {V : Type} (d : Dict.dict V) (k k' : string) (v v' : V) :
  In (k', v') (Dict.set d k v) -> (k' = k /\ v' = v) \/ In (k', v') d.
Proof.
  induction d as [|[k0 v0] d IH]; cbn.
  - intros [[= <- <-]|[]]. left; split; reflexivity.
  - destruct (String.eqb_spec k0 k) as [->|Hne]; cbn.
    + intros [[= <- <-]|H]; [left; split; reflexivity|right; right; exact H].
    + intros [H|H]; [right; left; exact H|].
      destruct (IH H) as [?|?]; [left; assumption|right; right; assumption].
Qed.

Lemma In_set_same {V : Type} (d : Dict.dict V) (k : string) (v : V) :
  In (k, v) (Dict.set d k v).
Proof. apply get_In, get_set_same. Qed.

Lemma In_set_keep {V : Type} (d : Dict.dict V) (k k' : string) (v v' : V) :
  In (k', v') d ->
  In (k', v') (Dict.set d k v) \/ (k' = k /\ Dict.get d k = Some v').
Proof.
  induction d as [|[k0 v0] d IH]; cbn; [contradiction|].
  intros [H|H].
  - injection H as -> ->.
    destruct (String.eqb_spec k' k) as [->|Hne].
    + right. split; reflexivity.
    + left. left. reflexivity.
  - destruct (String.eqb_spec k0 k) as [->|Hne].
    + left. right. exact H.
    + destruct (IH H) as [H'|H']; [left; right; exact H'|right; exact H'].
Qed.

Lemma keys_set {V : Type} (d : Dict.dict V) (k : string) (v : V) :
  Dict.keys (Dict.set d k v) =
  match Dict.get d k with
  | Some _ => Dict.keys d
  | None => (Dict.keys d ++ [k])%list
  end.
Proof.
  induction d as [|[k0 v0] d IH]; cbn; [reflexivity|].
  destruct (String.eqb_spec k0 k) as [->|Hne]; cbn; [reflexivity|].
  unfold Dict.keys in IH. rewrite IH.
  destruct (Dict.get d k); reflexivity.
Qed.

Lemma get_None_keys {V : Type} (d : Dict.dict V) (k : string) :
  Dict.get d k = None -> ~ In k (Dict.keys d).
Proof.
  induction d as [|[k0 v0] d IH]; cbn; [tauto|].
  destruct (String.eqb_spec k0 k) as [->|Hne]; [discriminate|].
  intros H [E|Hin]; [contradiction|]. exact (IH H Hin).
Qed.

(** Assignment keeps the keys of a dict distinct. *)
Lemma NoDup_keys_set {V : Type} (d : Dict.dict V) (k : string) (v : V) :
  NoDup (Dict.keys d) -> NoDup (Dict.keys (Dict.set d k v)).
Proof.
  intros Hnd. rewrite keys_set.
  destruct (Dict.get d k) eqn:E; [assumption|].
  apply get_None_keys in E.
  apply NoDup_app; [assumption|repeat constructor; intros []| ].
  intros x Hx [<-|[]]. exact (E Hx).
Qed.

Lemma keys_del_incl {V : Type} (d : Dict.dict V) (k x : string) :
  In x (Dict.keys (Dict.del d k)) -> In x (Dict.keys d).
Proof.
  induction d as [|[k0 v0] d IH]; cbn; [tauto|].
  destruct (String.eqb_spec k0 k) as [->|Hne]; cbn; [tauto|].
  intros [H|H]; [left; exact H|right; exact (IH H)].
Qed.

Lemma NoDup_keys_del {V : Type} (d : Dict.dict V) (k : string) :
  NoDup (Dict.keys d) -> NoDup (Dict.keys (Dict.del d k)).
Proof.
  induction d as [|[k0 v0] d IH]; cbn; [trivial|].
  intros Hnd. inversion Hnd as [|? ? Hnot Hnd']; subst.
  destruct (String.eqb_spec k0 k) as [->|Hne]; cbn; [assumption|].
  constructor; [|apply IH; assumption].
  intros Hin. apply Hnot. exact (keys_del_incl _ _ _ Hin).
Qed.

(** ** The weekly report *)

Lemma reported_append_to (rep : report) (day_of_week nm x : string) :
  reported (Book.append_to rep day_of_week nm) x <-> reported rep x \/ x = nm.
Proof.
  unfold reported, Book.append_to. split.
  - intros (dw & l & Hin & Hx).
    destruct (Dict.get rep day_of_week) as [l0|] eqn:Hget;
      apply In_set_inv in Hin as [(-> & ->)|Hin].
    + apply in_app_or in Hx as [Hx|[<-|[]]]; [|right; reflexivity].
      left. exists day_of_week, l0. split; [apply get_In; assumption|assumption].
    + left. exists dw, l. split; assumption.
    + destruct Hx as [<-|[]]. right; reflexivity.
    + left. exists dw, l. split; assumption.
  - intros [(dw & l & Hin & Hx)| ->].
    + destruct (Dict.get rep day_of_week) as [l0|] eqn:Hget.
      * apply (In_set_keep _ day_of_week _ (l0 ++ [nm])%list) in Hin
          as [Hin|(-> & Hl)].
        -- exists dw, l. split; assumption.
        -- assert (l0 = l) as -> by congruence.
           exists day_of_week, (l ++ [nm])%list.
           split; [apply In_set_same|apply in_or_app; left; assumption].
      * apply (In_set_keep _ day_of_week _ [nm]) in Hin as [Hin|(-> & Hl)].
        -- exists dw, l. split; assumption.
        -- congruence.
    + destruct (Dict.get rep day_of_week) as [l0|].
      * exists day_of_week, (l0 ++ [nm])%list.
        split; [apply In_set_same|apply in_or_app; right; left; reflexivity].
      * exists day_of_week, [nm]. split; [apply In_set_same|left; reflexivity].
Qed.

(** The names in the report are those the loop appended. *)
Lemma birthdays_loop_reported (today : date) (entries : list (string * record)) :
  forall acc rep,
    Book.birthdays_loop today entries acc = Ok rep ->
    forall x,
      reported rep x <->
      reported acc x \/
      exists r b day_of_week,
        In (x, r) entries /\ birthday r = Some b /\
        Book.day_of_week_for today b = Ok (Some day_of_week).
Proof.
  induction entries as [|[nm r] rest IH]; intros acc rep H x.
  - injection H as <-. split; [tauto|].
    intros [H|(r & b & dw & [] & _)]. exact H.
  - cbn in H. unfold Rec.get_birthday in H.
    destruct (birthday r) as [b|] eqn:Hb.
    + apply bind_inv in H as (o & Ho & H). destruct o as [dw|].
      * rewrite (IH _ _ H x), reported_append_to. split.
        -- intros [[Hacc| ->]|(r' & b' & dw' & Hin & Hb' & Hd)].
           ++ left; assumption.
           ++ right. exists r, b, dw. repeat split; try assumption.
              left; reflexivity.
           ++ right. exists r', b', dw'. repeat split; try assumption.
              right; assumption.
        -- intros [Hacc|(r' & b' & dw' & [Hin|Hin] & Hb' & Hd)].
           ++ left; left; assumption.
           ++ injection Hin as -> ->. left; right; reflexivity.
           ++ right. exists r', b', dw'. repeat split; assumption.
      * rewrite (IH _ _ H x). split.
        -- intros [Hacc|(r' & b' & dw' & Hin & Hb' & Hd)];
             [left; assumption|].
           right. exists r', b', dw'. repeat split; try assumption.
           right; assumption.
        -- intros [Hacc|(r' & b' & dw' & [Hin|Hin] & Hb' & Hd)].
           ++ left; assumption.
           ++ injection Hin as -> ->. congruence.
           ++ right. exists r', b', dw'. repeat split; assumption.
    + rewrite (IH _ _ H x). split.
      * intros [Hacc|(r' & b' & dw' & Hin & Hb' & Hd)]; [left; assumption|].
        right. exists r', b', dw'. repeat split; try assumption.
        right; assumption.
      * intros [Hacc|(r' & b' & dw' & [Hin|Hin] & Hb' & Hd)].
        -- left; assumption.
        -- injection Hin as -> ->. congruence.
        -- right. exists r', b', dw'. repeat split; assumption.
Qed.

(** The loop ends with a report when its body raises for no contact. *)
Lemma birthdays_loop_returns (today : date) (entries : list (string * record)) :
  (forall nm r b, In (nm, r) entries -> birthday r = Some b ->
                  exists o, Book.day_of_week_for today b = Ok o) ->
  forall acc, exists rep, Book.birthdays_loop today entries acc = Ok rep.
Proof.
  induction entries as [|[nm r] rest IH]; intros Hall acc.
  - exists acc. reflexivity.
  - assert (Hrest : forall nm r b, In (nm, r) rest -> birthday r = Some b ->
                      exists o, Book.day_of_week_for today b = Ok o).
    { intros nm' r' b' Hin. apply (Hall nm' r' b'). right; assumption. }
    cbn. unfold Rec.get_birthday.
    destruct (birthday r) as [b|] eqn:Hb; [|apply IH; assumption].
    destruct (Hall nm r b (or_introl eq_refl) Hb) as (o & ->). cbn [bind].
    destruct o; apply IH; assumption.
Qed.

(** The loop raises what its body raises first. *)
Lemma birthdays_loop_raises (today : date) (entries : list (string * record)) :
  forall acc nm r b e,
    In (nm, r) entries -> birthday r = Some b ->
    Book.day_of_week_for today b = Raise e ->
    exists e', Book.birthdays_loop today entries acc = Raise e'.
Proof.
  induction entries as [|[nm0 r0] rest IH]; intros acc nm r b e Hin Hb He;
    [contradiction|].
  cbn. unfold Rec.get_birthday. destruct Hin as [Hin|Hin].
  - injection Hin as -> ->. rewrite Hb, He. cbn. eauto.
  - destruct (birthday r0) as [b0|]; [|eapply IH; eassumption].
    destruct (Book.day_of_week_for today b0) as [[dw|]|e0]; cbn [bind];
      [eapply IH; eassumption|eapply IH; eassumption|eauto].
Qed.

(** When the candidate date of every contact with a birthday can be
    built, the scheduler returns a report, and a contact with a birthday is
    in it exactly when its candidate date, weekend shift included, is at
    least 0 and less than 7 days after today. *)
Theorem report_window (clock : datetime) (book : AddressBook) :
  valid_date (dt_date clock) ->
  NoDup (Dict.keys book) ->
  (forall nm r b, Book.find book nm = Some r -> birthday r = Some b ->
                  is_ok (candidate (dt_date clock) b) = true) ->
  exists rep,
    Book.get_birthdays_per_week clock book = Ok rep /\
    forall nm r b c,
      Book.find book nm = Some r -> birthday r = Some b ->
      candidate (dt_date clock) b = Ok c ->
      (reported rep nm <-> 0 <= sub_days c (dt_date clock) < 7).
Proof.
  intros Ht Hnd Hall. unfold Book.get_birthdays_per_week. cbv zeta.
  set (today := dt_date clock) in *.
  destruct (birthdays_loop_returns today book) with (acc := @nil (string * list string))
    as (rep & Hrep).
  { intros nm r b Hin Hb.
    specialize (Hall nm r b (In_get _ _ _ Hnd Hin) Hb).
    destruct (candidate today b) as [c|e] eqn:Hc; [|discriminate].
    destruct (day_of_week_for_candidate today b c Ht Hc) as (_ & ->). eauto. }
  exists rep. split; [exact Hrep|].
  intros nm r b c Hfind Hb Hc.
  destruct (day_of_week_for_candidate today b c Ht Hc) as (H0 & Hdw).
  rewrite (birthdays_loop_reported today book _ _ Hrep nm). split.
  - intros [(dw & l & [] & _)|(r' & b' & dw & Hin & Hb' & Hd)].
    apply (In_get _ _ _ Hnd) in Hin. unfold Book.find in Hfind.
    assert (r' = r) as -> by congruence.
    assert (b' = b) as -> by congruence.
    rewrite Hdw in Hd.
    destruct (Z.leb_spec 7 (sub_days c today)); [discriminate|lia].
  - intros Hw. right. exists r, b, (strftime_A c).
    repeat split; [apply get_In; exact Hfind|exact Hb|].
    rewrite Hdw. destruct (Z.leb_spec 7 (sub_days c today)); [lia|reflexivity].
Qed.

(** ** Characters and conversions *)

Import Text Strptime.

Lemma code_inj (a b : ascii) : code a = code b -> a = b.
Proof.
  unfold code. intros H. apply N2Z.inj in H.
  rewrite <- (ascii_N_embedding a), <- (ascii_N_embedding b), H. reflexivity.
Qed.

Lemma code_range (a : ascii) : 0 <= code a < 256.
Proof. unfold code. pose proof (N_ascii_bounded a). lia. Qed.

Lemma is_digit_spec (a : ascii) : is_digit a = true <-> 48 <= code a <= 57.
Proof. unfold is_digit. rewrite andb_true_iff, !Z.leb_le. tauto. Qed.

Lemma is_digit_cases (a : ascii) :
  is_digit a = true ->
  a = "0"%char \/ a = "1"%char \/ a = "2"%char \/ a = "3"%char \/
  a = "4"%char \/ a = "5"%char \/ a = "6"%char \/ a = "7"%char \/
  a = "8"%char \/ a = "9"%char.
Proof.
  intros H. apply is_digit_spec in H.
  assert (E : code a = 48 \/ code a = 49 \/ code a = 50 \/ code a = 51 \/
              code a = 52 \/ code a = 53 \/ code a = 54 \/ code a = 55 \/
              code a = 56 \/ code a = 57) by lia.
  repeat (destruct E as [E|E];
          [repeat (try (left; apply code_inj; exact E); right);
           apply code_inj; exact E|]).
  repeat right. apply code_inj; exact E.
Qed.

Lemma is_digit_not_space (a : ascii) : is_digit a = true -> is_space a = false.
Proof.
  rewrite is_digit_spec. intros H. unfold is_space.
  apply orb_false_iff. split; [apply Z.eqb_neq; lia|].
  apply andb_false_iff. right. apply Z.leb_gt. lia.
Qed.

Lemma digit_val_range (a : ascii) : is_digit a = true -> 0 <= digit_val a <= 9.
Proof. rewrite is_digit_spec. unfold digit_val. lia. Qed.

Lemma int_one_digit (a : ascii) :
  is_digit a = true -> int (String a EmptyString) = Ok (digit_val a).
Proof.
  intros Ha. unfold int. cbn [lstrip]. rewrite (is_digit_not_space a Ha), Ha.
  cbn [digits_value]. rewrite Ha. cbn [digits_value]. f_equal; lia.
Qed.

Lemma int_two_digits (a b : ascii) :
  is_digit a = true -> is_digit b = true ->
  int (String a (String b EmptyString)) = Ok (10 * digit_val a + digit_val b).
Proof.
  intros Ha Hb. unfold int. cbn [lstrip]. rewrite (is_digit_not_space a Ha), Ha.
  cbn [digits_value]. rewrite Ha, Hb. f_equal; lia.
Qed.

Lemma int_space_digit (a : ascii) :
  is_digit a = true ->
  int (String " " (String a EmptyString)) = Ok (digit_val a).
Proof.
  intros Ha. unfold int. cbn [lstrip].
  change (is_space " ") with true. cbn iota.
  rewrite (is_digit_not_space a Ha), Ha.
  cbn [digits_value]. rewrite Ha. f_equal; lia.
Qed.

Lemma int_four_digits (a b c d : ascii) :
  is_digit a = true -> is_digit b = true ->
  is_digit c = true -> is_digit d = true ->
  int (String a (String b (String c (String d EmptyString)))) =
  Ok (1000 * digit_val a + 100 * digit_val b + 10 * digit_val c + digit_val d).
Proof.
  intros Ha Hb Hc Hd. unfold int. cbn [lstrip].
  rewrite (is_digit_not_space a Ha), Ha.
  cbn [digits_value]. rewrite Ha, Hb, Hc, Hd. f_equal; lia.
Qed.

Lemma int_day_text (s : string) (d : Z) : day_text s d -> int s = Ok d.
Proof.
  intros [((a & b & -> & Ha & Hb & ->) & _)
         |[((a & -> & Ha & ->) & _)
          |(s' & -> & (a & -> & Ha & ->) & _)]].
  - apply int_two_digits; assumption.
  - apply int_one_digit; assumption.
  - apply int_space_digit; assumption.
Qed.

Lemma int_month_text (s : string) (m : Z) : month_text s m -> int s = Ok m.
Proof.
  intros [((a & b & -> & Ha & Hb & ->) & _)|((a & -> & Ha & ->) & _)].
  - apply int_two_digits; assumption.
  - apply int_one_digit; assumption.
Qed.

Lemma int_four_digits_text (s : string) (y : Z) : four_digits s y -> int s = Ok y.
Proof.
  intros (a & b & c & d & -> & Ha & Hb & Hc & Hd & ->).
  apply int_four_digits; assumption.
Qed.

(** ** The pattern of '%d.%m.%Y' *)

Lemma string_app_assoc (a b c : string) :
  ((a ++ b) ++ c = a ++ (b ++ c))%string.
Proof. induction a as [|x a IH]; cbn; [reflexivity|]. rewrite IH. reflexivity. Qed.

Lemma string_app_nil_r (a : string) : (a ++ "")%string = a.
Proof. induction a as [|x a IH]; cbn; [reflexivity|]. rewrite IH. reflexivity. Qed.

Lemma string_length_app (a b : string) :
  String.length (a ++ b) = (String.length a + String.length b)%nat.
Proof. induction a as [|x a IH]; cbn; [reflexivity|]. rewrite IH. reflexivity. Qed.

(** A match found by the matcher is a match of the expression, and the
    continuation accepted it. *)
Lemma rmatch_sound {R : Type} (r : regex) :
  forall s g (k : string -> string -> groups -> option R) x,
    rmatch r s g k = Some x ->
    exists m rest g',
      s = (m ++ rest)%string /\ rmatches r m g g' /\ k m rest g' = Some x.
Proof.
  induction r as [cs|r1 IH1 r2 IH2|r1 IH1 r2 IH2|name r IH]; intros s g k x H;
    cbn [rmatch] in H.
  - destruct s as [|a s']; [discriminate|].
    destruct (cset_mem cs a) eqn:Hc; [|discriminate].
    exists (String a EmptyString), s', g.
    split; [reflexivity|]. split; [constructor; assumption|assumption].
  - apply IH1 in H as (m1 & rest1 & g1 & -> & M1 & H).
    apply IH2 in H as (m2 & rest2 & g2 & -> & M2 & H).
    exists (m1 ++ m2)%string, rest2, g2.
    split; [symmetry; apply string_app_assoc|].
    split; [econstructor; eassumption|assumption].
  - destruct (rmatch r1 s g k) as [y|] eqn:H1.
    + injection H as ->. apply IH1 in H1 as (m & rest & g' & -> & M & H).
      exists m, rest, g'. split; [reflexivity|].
      split; [apply M_alt_l; assumption|assumption].
    + apply IH2 in H as (m & rest & g' & -> & M & H).
      exists m, rest, g'. split; [reflexivity|].
      split; [apply M_alt_r; assumption|assumption].
  - apply IH in H as (m & rest & g' & -> & M & H).
    exists m, rest, ((name, m) :: g'). split; [reflexivity|].
    split; [constructor; assumption|assumption].
Qed.

Lemma cset_one (c a : ascii) : cset_mem (One c) a = true -> a = c.
Proof. cbn. intros H. apply Z.eqb_eq in H. apply code_inj. exact H. Qed.

Lemma cset_range (lo hi a : ascii) :
  cset_mem (Range lo hi) a = true -> code lo <= code a <= code hi.
Proof. cbn. rewrite andb_true_iff, !Z.leb_le. tauto. Qed.

(** The codes of the characters the pattern names. *)
Ltac char_codes :=
  change (code "0"%char) with 48 in *;
  change (code "1"%char) with 49 in *;
  change (code "2"%char) with 50 in *;
  change (code "3"%char) with 51 in *;
  change (code "9"%char) with 57 in *.

(** Takes a match of a fixed-length alternative apart. *)
Ltac rmatches_inv :=
  repeat match goal with
  | H : rmatches (Grp _ _) _ _ _ |- _ => inversion H; subst; clear H
  | H : rmatches (Alt _ _) _ _ _ |- _ => inversion H; subst; clear H
  | H : rmatches (Cat _ _) _ _ _ |- _ => inversion H; subst; clear H
  | H : rmatches (Chr _) _ _ _ |- _ => inversion H; subst; clear H
  | H : rmatches (lit _) _ _ _ |- _ => unfold lit in H
  | H : rmatches (rng _ _) _ _ _ |- _ => unfold rng in H
  | H : rmatches dig _ _ _ |- _ => unfold dig in H
  | H : cset_mem (One _) _ = true |- _ => apply cset_one in H; subst
  | H : cset_mem (Range _ _) _ = true |- _ => apply cset_range in H
  | H : cset_mem Digit _ = true |- _ => change (cset_mem Digit) with is_digit in H
  end.

Ltac solve_digit :=
  first [ reflexivity | assumption | apply is_digit_spec; char_codes; lia ].

Ltac solve_value :=
  first [ reflexivity
        | repeat match goal with
            | H : is_digit _ = true |- _ => apply is_digit_spec in H
            end;
          unfold digit_val; char_codes; lia ].

Lemma re_d_inv (m : string) (g g' : groups) :
  rmatches re_d m g g' -> g' = ("d", m) :: g /\ exists d, day_text m d.
Proof.
  unfold re_d. intros H. rmatches_inv; (split; [reflexivity|]); char_codes;
    cbn [append].
  1-3: match goal with
       | |- exists d, day_text (String ?a (String ?b EmptyString)) d =>
           exists (10 * digit_val a + digit_val b); left;
           split; [exists a, b; repeat split; solve_digit|solve_value]
       end.
  - match goal with
    | |- exists d, day_text (String ?a EmptyString) d =>
        exists (digit_val a); right; left;
        split; [exists a; repeat split; solve_digit|solve_value]
    end.
  - match goal with
    | |- exists d, day_text (String " " (String ?a EmptyString)) d =>
        exists (digit_val a); right; right; exists (String a EmptyString);
        split; [reflexivity|];
        split; [exists a; repeat split; solve_digit|solve_value]
    end.
Qed.

Lemma re_m_inv (m : string) (g g' : groups) :
  rmatches re_m m g g' -> g' = ("m", m) :: g /\ exists mo, month_text m mo.
Proof.
  unfold re_m. intros H. rmatches_inv; (split; [reflexivity|]); char_codes;
    cbn [append].
  1-2: match goal with
       | |- exists d, month_text (String ?a (String ?b EmptyString)) d =>
           exists (10 * digit_val a + digit_val b); left;
           split; [exists a, b; repeat split; solve_digit|solve_value]
       end.
  match goal with
  | |- exists d, month_text (String ?a EmptyString) d =>
      exists (digit_val a); right;
      split; [exists a; repeat split; solve_digit|solve_value]
  end.
Qed.

Lemma re_Y_inv (m : string) (g g' : groups) :
  rmatches re_Y m g g' -> g' = ("Y", m) :: g /\ exists y, four_digits m y.
Proof.
  unfold re_Y. intros H. rmatches_inv. split; [reflexivity|]. cbn [append].
  match goal with
  | |- exists y, four_digits
                   (String ?a (String ?b (String ?c (String ?d EmptyString)))) y =>
      exists (1000 * digit_val a + 100 * digit_val b
              + 10 * digit_val c + digit_val d);
      exists a, b, c, d; repeat split; assumption
  end.
Qed.

Lemma lit_inv (c : ascii) (m : string) (g g' : groups) :
  rmatches (lit c) m g g' -> m = String c EmptyString /\ g' = g.
Proof. intros H. rmatches_inv. split; reflexivity. Qed.

(** What the whole pattern matches, and the groups it leaves. *)
Lemma format_regex_inv (m : string) (g : groups) :
  rmatches format_regex m [] g ->
  exists ds ms ys d mo y,
    m = dotted ds ms ys /\ g = [("Y", ys); ("m", ms); ("d", ds)] /\
    day_text ds d /\ month_text ms mo /\ four_digits ys y.
Proof.
  unfold format_regex. intros H.
  inversion H as [|? ? ds t1 ? g1 ? Hd H1| | |]; subst; clear H.
  inversion H1 as [|? ? dot1 t2 ? g2 ? Hdot1 H2| | |]; subst; clear H1.
  inversion H2 as [|? ? ms t3 ? g3 ? Hm H3| | |]; subst; clear H2.
  inversion H3 as [|? ? dot2 ys ? g4 ? Hdot2 HY| | |]; subst; clear H3.
  apply re_d_inv in Hd as (-> & d & Hd).
  apply lit_inv in Hdot1 as (-> & ->).
  apply re_m_inv in Hm as (-> & mo & Hm).
  apply lit_inv in Hdot2 as (-> & ->).
  apply re_Y_inv in HY as (-> & y & HY).
  exists ds, ms, ys, d, mo, y. repeat split; assumption.
Qed.

(** The matcher on a text that begins with a day field and a dot: when the
    rest of the pattern accepts what follows the day field, the match is
    the one that gives the group the day field. *)
Lemma rmatch_re_d {R : Type} (ds : string) (d : Z) (rest : string)
    (g : groups) (k : string -> string -> groups -> option R) (x : R) :
  day_text ds d ->
  k ds (String "." rest) (("d", ds) :: g) = Some x ->
  rmatch re_d (ds ++ String "." rest) g k = Some x.
Proof.
  intros [((a & b & -> & Ha & Hb & ->) & Hr)
         |[((a & -> & Ha & ->) & Hr)
          |(s' & -> & (a & -> & Ha & ->) & Hr)]] Hk.
  - apply is_digit_cases in Ha, Hb.
    repeat (destruct Ha as [Ha|Ha]); repeat (destruct Hb as [Hb|Hb]);
      subst a b;
      first [ exfalso; cbn in Hr; lia | cbn; rewrite Hk; reflexivity ].
  - apply is_digit_cases in Ha.
    repeat (destruct Ha as [Ha|Ha]); subst a;
      first [ exfalso; cbn in Hr; lia | cbn; rewrite Hk; reflexivity ].
  - apply is_digit_cases in Ha.
    repeat (destruct Ha as [Ha|Ha]); subst a;
      first [ exfalso; cbn in Hr; lia | cbn; rewrite Hk; reflexivity ].
Qed.

Lemma rmatch_re_m {R : Type} (ms : string) (m : Z) (rest : string)
    (g : groups) (k : string -> string -> groups -> option R) (x : R) :
  month_text ms m ->
  k ms (String "." rest) (("m", ms) :: g) = Some x ->
  rmatch re_m (ms ++ String "." rest) g k = Some x.
Proof.
  intros [((a & b & -> & Ha & Hb & ->) & Hr)|((a & -> & Ha & ->) & Hr)] Hk.
  - apply is_digit_cases in Ha, Hb.
    repeat (destruct Ha as [Ha|Ha]); repeat (destruct Hb as [Hb|Hb]);
      subst a b;
      first [ exfalso; cbn in Hr; lia | cbn; rewrite Hk; reflexivity ].
  - apply is_digit_cases in Ha.
    repeat (destruct Ha as [Ha|Ha]); subst a;
      first [ exfalso; cbn in Hr; lia | cbn; rewrite Hk; reflexivity ].
Qed.

Lemma rmatch_re_Y {R : Type} (ys : string) (y : Z) (rest : string)
    (g : groups) (k : string -> string -> groups -> option R) :
  four_digits ys y ->
  rmatch re_Y (ys ++ rest) g k = k ys rest (("Y", ys) :: g).
Proof.
  intros (a & b & c & d & -> & Ha & Hb & Hc & Hd & _).
  cbn. rewrite Ha, Hb, Hc, Hd. reflexivity.
Qed.

Lemma rmatch_dot {R : Type} (rest : string) (g : groups)
    (k : string -> string -> groups -> option R) :
  rmatch (lit ".") (String "." rest) g k = k "."%string rest g.
Proof. reflexivity. Qed.

(** The pattern matches the whole of a dotted text of three such fields. *)
Lemma rmatch_format_regex (ds ms ys : string) (d m y : Z) :
  day_text ds d -> month_text ms m -> four_digits ys y ->
  rmatch format_regex (dotted ds ms ys) [] (fun f rest g => Some (f, rest, g))
  = Some (dotted ds ms ys, EmptyString, [("Y", ys); ("m", ms); ("d", ds)]).
Proof.
  intros Hd Hm Hy. unfold format_regex, dotted.
  cbn [rmatch append].
  apply (rmatch_re_d ds d); [exact Hd|]. rewrite rmatch_dot.
  apply (rmatch_re_m ms m); [exact Hm|]. rewrite rmatch_dot.
  rewrite <- (string_app_nil_r ys) at 1.
  rewrite (rmatch_re_Y ys y _ _ _ Hy). reflexivity.
Qed.

Lemma len_app_eq (m rest : string) :
  len (m ++ rest) = len m -> rest = EmptyString.
Proof.
  unfold len. rewrite string_length_app. intros H.
  destruct rest; [reflexivity|]. cbn in H. lia.
Qed.

(** [strptime] succeeds exactly on the dotted texts of a day field, a month
    field and a four-digit year that name a day of the calendar. *)
Lemma strptime_ok_iff (value : string) :
  (exists dt, strptime value = Ok dt) <-> lenient_birthday value.
Proof.
  unfold strptime. split.
  - intros (dt & H).
    destruct (rmatch format_regex value [] _) as [[[found rest] g]|] eqn:Hm;
      [|discriminate].
    apply rmatch_sound in Hm as (m' & rest' & g' & -> & M & [= <- <- <-]).
    destruct (Z.eqb_spec (len (m' ++ rest')) (len m')) as [E|E];
      [|discriminate].
    apply len_app_eq in E. subst rest'. rewrite string_app_nil_r.
    apply format_regex_inv in M
      as (ds & ms & ys & d & mo & y & -> & -> & Hd & Hmo & Hy).
    cbn [negb group String.eqb Ascii.eqb Bool.eqb] in H.
    rewrite (int_day_text _ _ Hd), (int_month_text _ _ Hmo),
      (int_four_digits_text _ _ Hy) in H.
    cbn [bind] in H. apply new_inv in H as (-> & V).
    exists ds, ms, ys, d, mo, y. repeat split; assumption.
  - intros (ds & ms & ys & d & m & y & -> & Hd & Hm & Hy & V).
    rewrite (rmatch_format_regex ds ms ys d m y Hd Hm Hy).
    rewrite Z.eqb_refl.
    cbn [negb group String.eqb Ascii.eqb Bool.eqb].
    rewrite (int_day_text _ _ Hd), (int_month_text _ _ Hm),
      (int_four_digits_text _ _ Hy).
    cbn [bind]. unfold new. rewrite V. eauto.
Qed.

(** ** The weekend shift *)

(** X25. A weekend birthday whose shifted day number still lies in its
    month is moved to the Monday that follows it, one or two days later. *)
Lemma weekend_shift_monday (bday c0 c : date) :
  valid_date c0 -> day c0 = day bday -> 4 < weekday c0 ->
  Book.weekend_shift bday c0 = Ok c ->
  weekday c = 0 /\ sub_days c c0 = 7 - weekday c0 /\ 1 <= sub_days c c0 <= 2.
Proof.
  intros V Hd Hw H.
  destruct (weekend_shift_spec bday c0 c V Hd H) as (_ & E).
  pose proof (weekday_range c0) as R.
  destruct (Z.ltb_spec 4 (weekday c0)); [|lia].
  unfold sub_days. repeat split; try lia.
  unfold weekday in *. rewrite E.
  replace (toordinal c0 + (7 - (toordinal c0 + 6) mod 7) + 6)
    with ((toordinal c0 + 6) - (toordinal c0 + 6) mod 7 + 1 * 7) by lia.
  rewrite Z.mod_add by lia.
  rewrite Zminus_mod_idemp_r, Z.sub_diag. reflexivity.
Qed.

(** X26. On a weekend the shift raises exactly when the shifted day number
    is past the end of the month. *)
Lemma weekend_shift_raises (bday c0 : date) :
  valid_date c0 -> day c0 = day bday -> 4 < weekday c0 ->
  (Book.weekend_shift bday c0 = Raise ValueError <->
   days_in_month (year c0) (month c0) < day bday + (7 - weekday c0)).
Proof.
  intros V Hd Hw. apply valid_date_spec in V.
  pose proof (weekday_range c0) as R.
  unfold Book.weekend_shift, replace_day, new.
  destruct (Z.ltb_spec 4 (weekday c0)); [|lia].
  destruct (check_date_fields _ _ _) eqn:E.
  - apply check_date_fields_spec in E. split; [discriminate|lia].
  - split; [|reflexivity]. intros _.
    destruct (Z.lt_ge_cases (days_in_month (year c0) (month c0))
                (day bday + (7 - weekday c0))) as [|Hn]; [assumption|].
    assert (check_date_fields (year c0) (month c0)
              (day bday + (6 - weekday c0 + 1)) = true) as E'
      by (apply check_date_fields_spec; lia).
    congruence.
Qed.

(** C1. Monday 2024-06-24 and a birthday on 30.06: this year's birthday is
    Sunday 2024-06-30, the shift asks for day 31 of June, and the scheduler
    raises ValueError where the Monday after, 2024-07-01, was due. *)
Theorem weekend_shift_fails_at_month_end :
  Book.rolled_birthday (dt_date monday_2024_06_24) (mkdate 1990 6 30)
    = Ok (mkdate 2024 6 30) /\
  weekday (mkdate 2024 6 30) = 6 /\
  Book.weekend_shift (mkdate 1990 6 30) (mkdate 2024 6 30) = Raise ValueError /\
  Book.get_birthdays_per_week monday_2024_06_24 book_month_end
    = Raise ValueError.
Proof. repeat split; vm_compute; reflexivity. Qed.

(** ** Birthdays on the 29th of February *)

(** X27. In a year that is not a leap year, [replace(year=today.year)]
    raises on a birthday of 29 February. *)
Lemma leap_day_no_candidate (today bday : date) :
  is_leap (year today) = false -> month bday = 2 -> day bday = 29 ->
  Book.rolled_birthday today bday = Raise ValueError.
Proof.
  intros Hl Hm Hd. unfold Book.rolled_birthday, replace_year, new.
  rewrite Hm, Hd.
  assert (check_date_fields (year today) 2 29 = false) as ->; [|reflexivity].
  destruct (check_date_fields (year today) 2 29) eqn:E; [|reflexivity].
  apply check_date_fields_spec in E. unfold days_in_month in E.
  rewrite Hl in E. cbn in E. lia.
Qed.

(** C4. Today in 2023 and a stored birthday 29.02.2000: the birthday is
    accepted when it is set, and the scheduler raises ValueError when it
    builds this year's date; there is no fallback date. *)
Theorem leap_day_birthday_raises :
  Birthday.validate_birthday "29.02.2000" = true /\
  is_leap (year (dt_date monday_2023_06_05)) = false /\
  candidate (dt_date monday_2023_06_05) "29.02.2000" = Raise ValueError /\
  Book.get_birthdays_per_week monday_2023_06_05 book_leap_day
    = Raise ValueError.
Proof. repeat split; vm_compute; reflexivity. Qed.

(** ** Scenario B *)

(** C3. Today is Monday 2024-06-03 and the book holds Bob with birthday
    08.06.1995: the candidate date is Monday 2024-06-10, seven days away,
    the loop skips Bob, and no list of a report holds "Bob". *)
Theorem scenario_B_excluded (book : AddressBook) (r : record) :
  NoDup (Dict.keys book) ->
  Book.find book "Bob" = Some r ->
  birthday r = Some "08.06.1995" ->
  candidate (dt_date monday_2024_06_03) "08.06.1995" = Ok (mkdate 2024 6 10) /\
  sub_days (mkdate 2024 6 10) (dt_date monday_2024_06_03) = 7 /\
  Book.day_of_week_for (dt_date monday_2024_06_03) "08.06.1995" = Ok None /\
  forall rep,
    Book.get_birthdays_per_week monday_2024_06_03 book = Ok rep ->
    ~ reported rep "Bob".
Proof.
  intros Hnd Hfind Hb.
  assert (Hdw : Book.day_of_week_for (dt_date monday_2024_06_03) "08.06.1995"
                = Ok None) by (vm_compute; reflexivity).
  split; [vm_compute; reflexivity|].
  split; [vm_compute; reflexivity|].
  split; [exact Hdw|].
  intros rep Hrep Hin. unfold Book.get_birthdays_per_week in Hrep.
  apply (birthdays_loop_reported _ _ _ _ Hrep) in Hin
    as [(dw & l & [] & _)|(r' & b' & dw & Hin & Hb' & Hd)].
  apply (In_get _ _ _ Hnd) in Hin. unfold Book.find in Hfind.
  assert (r' = r) as -> by congruence.
  assert (b' = "08.06.1995") as -> by congruence.
  rewrite Hdw in Hd. discriminate.
Qed.

Lemma scenario_B_excluded_witness :
  NoDup (Dict.keys book_bob) /\
  Book.find book_bob "Bob" = Some (snd (contact "Bob" "0502222222" "08.06.1995")) /\
  Book.get_birthdays_per_week monday_2024_06_03 book_bob = Ok [] /\
  ~ reported [] "Bob".
Proof.
  assert (Hnd : NoDup (Dict.keys book_bob)).
  { repeat constructor. intros []. }
  split; [exact Hnd|]. split; [reflexivity|]. split; [reflexivity|].
  apply (scenario_B_excluded book_bob _ Hnd eq_refl eq_refl). reflexivity.
Defined.

Lemma report_window_witness :
  valid_date (dt_date monday_2024_06_03) /\
  NoDup (Dict.keys book_scenarios) /\
  exists rep,
    Book.get_birthdays_per_week monday_2024_06_03 book_scenarios = Ok rep /\
    forall nm r b c,
      Book.find book_scenarios nm = Some r -> birthday r = Some b ->
      candidate (dt_date monday_2024_06_03) b = Ok c ->
      (reported rep nm <-> 0 <= sub_days c (dt_date monday_2024_06_03) < 7).
Proof.
  assert (Hv : valid_date (dt_date monday_2024_06_03)) by reflexivity.
  assert (Hnd : NoDup (Dict.keys book_scenarios)).
  { repeat constructor; cbn; intuition discriminate. }
  split; [exact Hv|]. split; [exact Hnd|].
  apply (report_window monday_2024_06_03 book_scenarios Hv Hnd).
  intros nm r b Hfind Hb. unfold Book.find, book_scenarios, contact in Hfind.
  cbn [Dict.get] in Hfind.
  repeat match type of Hfind with
         | (if ?c then _ else _) = _ => destruct c
         end;
    try discriminate Hfind; injection Hfind as <-; cbn in Hb;
    try discriminate Hb; injection Hb as <-; vm_compute; reflexivity.
Defined.

(** ** edit_phone *)

Lemma edit_first_absent (ps : list string) (old_phone new_phone : string) :
  ~ In old_phone ps -> Rec.edit_first ps old_phone new_phone = ps.
Proof.
  induction ps as [|p ps IH]; cbn; [reflexivity|]. intros Hn.
  destruct (String.eqb_spec p old_phone) as [->|Hne]; [tauto|].
  rewrite IH by tauto. reflexivity.
Qed.

Lemma edit_first_replaces (l1 l2 : list string) (old_phone new_phone : string) :
  ~ In old_phone l1 ->
  Rec.edit_first (l1 ++ old_phone :: l2)%list old_phone new_phone
  = (l1 ++ new_phone :: l2)%list.
Proof.
  induction l1 as [|p l1 IH]; cbn; intros Hn.
  - rewrite String.eqb_refl. reflexivity.
  - destruct (String.eqb_spec p old_phone) as [->|Hne]; [tauto|].
    rewrite IH by tauto. reflexivity.
Qed.

(** X28. [edit_phone] returns for every new text; it replaces the first
    phone equal to the old one, only that one, and changes nothing when
    there is none. *)
Lemma edit_phone_returns (self : record) (old_phone new_phone : string) :
  exists r,
    Rec.edit_phone self old_phone new_phone = Ok r /\
    name r = name self /\ birthday r = birthday self /\
    (~ In old_phone (phones self) -> phones r = phones self) /\
    (forall l1 l2, phones self = (l1 ++ old_phone :: l2)%list ->
                   ~ In old_phone l1 ->
                   phones r = (l1 ++ new_phone :: l2)%list).
Proof.
  eexists. split; [reflexivity|]. cbn. repeat split.
  - apply edit_first_absent.
  - intros l1 l2 -> Hn. apply edit_first_replaces. exact Hn.
Qed.

(** C5. A record with the phone 1234567890 and the new text "abc", which
    is no phone: [edit_phone] does not raise, and the record then holds
    "abc" where [add_phone] with the same text raises ValueError. *)
Theorem edit_phone_accepts_invalid_phone :
  Phone.validate_phone "abc" = false /\
  Rec.add_phone (mkRecord "Ann" ["1234567890"] None) "abc" = Raise ValueError /\
  Rec.edit_phone (mkRecord "Ann" ["1234567890"] None) "1234567890" "abc"
    = Ok (mkRecord "Ann" ["abc"] None).
Proof. repeat split. Qed.

(** ** The store invariant *)

Lemma validate_phone_ok (p : string) :
  Phone.validate_phone p = true -> phone_ok p = true.
Proof.
  unfold Phone.validate_phone, phone_ok, len, isdigit.
  rewrite !andb_true_iff. intros (Hl & Hd). split.
  - apply Z.eqb_eq in Hl. apply Nat.eqb_eq. lia.
  - destruct p; [discriminate|exact Hd].
Qed.

Lemma validate_birthday_ok (b : string) :
  Birthday.validate_birthday b = true -> birthday_ok b = true.
Proof.
  unfold Birthday.validate_birthday, birthday_ok.
  destruct (strptime b) as [d|[]]; cbn; congruence.
Qed.

Lemma forallb_dict_set {V : Type} (f : V -> bool) (d : Dict.dict V)
    (k : string) (v : V) :
  forallb (fun kv => f (snd kv)) d = true -> f v = true ->
  forallb (fun kv => f (snd kv)) (Dict.set d k v) = true.
Proof.
  intros Hd Hv. induction d as [|[k0 v0] d IH]; cbn in *.
  - rewrite Hv. reflexivity.
  - apply andb_true_iff in Hd as (H0 & Hd).
    destruct (String.eqb k0 k); cbn; rewrite ?Hv, ?H0, ?Hd; auto.
Qed.

Lemma forallb_dict_del {V : Type} (f : V -> bool) (d : Dict.dict V)
    (k : string) :
  forallb (fun kv => f (snd kv)) d = true ->
  forallb (fun kv => f (snd kv)) (Dict.del d k) = true.
Proof.
  intros Hd. induction d as [|[k0 v0] d IH]; cbn in *; [reflexivity|].
  apply andb_true_iff in Hd as (H0 & Hd).
  destruct (String.eqb k0 k); cbn; rewrite ?H0; auto.
Qed.

Lemma forallb_dict_get {V : Type} (f : V -> bool) (d : Dict.dict V)
    (k : string) (v : V) :
  forallb (fun kv => f (snd kv)) d = true -> Dict.get d k = Some v ->
  f v = true.
Proof.
  intros Hd Hg. apply get_In in Hg.
  rewrite forallb_forall in Hd. exact (Hd _ Hg).
Qed.

Lemma record_ok_iff (r : record) :
  record_ok r = true <->
  name r <> EmptyString /\ forallb phone_ok (phones r) = true /\
  match birthday r with Some b => birthday_ok b | None => true end = true.
Proof.
  unfold record_ok. rewrite !andb_true_iff, negb_true_iff, String.eqb_neq.
  tauto.
Qed.

Lemma init_ok (nm : string) (r : record) :
  Rec.init nm = Ok r -> record_ok r = true.
Proof.
  unfold Rec.init, Name.new. destruct nm; [discriminate|].
  cbn. intros [= <-]. reflexivity.
Qed.

Lemma add_phone_ok (self r : record) (phone : string) :
  record_ok self = true -> Rec.add_phone self phone = Ok r ->
  record_ok r = true.
Proof.
  unfold Rec.add_phone, Phone.new. intros Hs.
  destruct (Phone.validate_phone phone) eqn:Hp; [|discriminate].
  cbn. intros [= <-]. apply record_ok_iff in Hs as (Hn & Hps & Hb).
  apply record_ok_iff. cbn. repeat split; try assumption.
  rewrite forallb_app, Hps. cbn. rewrite (validate_phone_ok _ Hp). reflexivity.
Qed.

Lemma add_birthday_ok (self r : record) (bday : string) :
  record_ok self = true -> Rec.add_birthday self bday = Ok r ->
  record_ok r = true.
Proof.
  unfold Rec.add_birthday, Birthday.new. intros Hs.
  destruct (Birthday.validate_birthday bday) eqn:Hp; [|discriminate].
  cbn. intros [= <-]. apply record_ok_iff in Hs as (Hn & Hps & Hb).
  apply record_ok_iff. cbn. repeat split; try assumption.
  apply validate_birthday_ok. exact Hp.
Qed.

Lemma remove_phone_ok (self : record) (phone : string) :
  record_ok self = true -> record_ok (Rec.remove_phone self phone) = true.
Proof.
  intros Hs. apply record_ok_iff in Hs as (Hn & Hps & Hb).
  apply record_ok_iff. cbn. repeat split; try assumption.
  rewrite forallb_forall in *. intros p Hp. apply filter_In in Hp as (Hp & _).
  exact (Hps p Hp).
Qed.

Lemma edit_first_ok (ps : list string) (old_phone new_phone : string) :
  forallb phone_ok ps = true -> phone_ok new_phone = true ->
  forallb phone_ok (Rec.edit_first ps old_phone new_phone) = true.
Proof.
  intros Hps Hn. induction ps as [|p ps IH]; cbn in *; [reflexivity|].
  apply andb_true_iff in Hps as (Hp & Hps).
  destruct (String.eqb p old_phone); cbn; rewrite ?Hn, ?Hp, ?Hps; auto.
Qed.

Lemma call_ok (nm : string) (method : record -> result record)
    (book : AddressBook) :
  (forall r r', record_ok r = true -> method r = Ok r' -> record_ok r' = true) ->
  store_ok book = true -> store_ok (snd (Bot.call nm method book)) = true.
Proof.
  intros Hm Hs. unfold Bot.call, Book.find.
  destruct (Dict.get book nm) as [r|] eqn:Hg; [|exact Hs].
  destruct (method r) as [r'|e] eqn:Hr; [|exact Hs].
  cbn. apply (forallb_dict_set record_ok); [exact Hs|].
  apply (Hm r r'); [|exact Hr].
  exact (forallb_dict_get record_ok _ _ _ Hs Hg).
Qed.

Lemma add_contact_ok (args : list string) (book : AddressBook) :
  store_ok book = true -> store_ok (snd (Bot.add_contact args book)) = true.
Proof.
  intros Hs. unfold Bot.add_contact, Bot.input_error, Bot.cbind, Bot.unpack2.
  destruct args as [|nm [|phone [|x args]]]; try exact Hs.
  cbn. destruct (Rec.init nm) as [r0|e0] eqn:H0; cbn.
  - destruct (Rec.add_phone r0 phone) as [r1|e1] eqn:H1; cbn.
    + apply (forallb_dict_set record_ok); [exact Hs|].
      apply (add_phone_ok r0 r1 phone); [|exact H1]. exact (init_ok _ _ H0).
    + destruct e1; exact Hs.
  - destruct e0; exact Hs.
Qed.

(** Every operation that passes validated phone text keeps the invariant:
    only [edit_phone] with a text that is no phone can break it. *)
Lemma apply_op_ok (o : op) (book : AddressBook) :
  op_validated o = true -> store_ok book = true ->
  store_ok (apply_op o book) = true.
Proof.
  intros Hv Hs. destruct o as [nm p|nm|nm p|nm p|nm old new|nm b]; cbn [apply_op].
  - apply add_contact_ok; exact Hs.
  - unfold Book.delete. destruct (Dict.get book nm); [|exact Hs].
    apply (forallb_dict_del record_ok); exact Hs.
  - apply call_ok; [|exact Hs]. intros r r'. apply add_phone_ok.
  - apply call_ok; [|exact Hs]. intros r r' Hr [= <-].
    apply remove_phone_ok; exact Hr.
  - apply call_ok; [|exact Hs]. intros r r' Hr [= <-].
    apply record_ok_iff in Hr as (Hn & Hps & Hb).
    apply record_ok_iff. cbn. repeat split; try assumption.
    apply edit_first_ok; [exact Hps|]. apply validate_phone_ok. exact Hv.
  - apply call_ok; [|exact Hs]. intros r r'. apply add_birthday_ok.
Qed.

(** A sequence of operations that pass only validated phone text keeps
    the store invariant of the data model. *)
Lemma run_ops_ok (ops : list op) :
  forall book,
    forallb op_validated ops = true -> store_ok book = true ->
    store_ok (run_ops ops book) = true.
Proof.
  unfold run_ops. induction ops as [|o ops IH]; intros book Hv Hs; cbn in *.
  - exact Hs.
  - apply andb_true_iff in Hv as (Ho & Hv).
    apply IH; [exact Hv|]. apply apply_op_ok; assumption.
Qed.

(** C6. From the empty book, add Ann with the phone 1234567890, then
    [edit_phone("1234567890", "abc")] on her record: the invariant holds
    after the first operation and fails after the second, the stored phone
    being "abc". *)
Theorem edit_phone_breaks_store_invariant :
  store_ok [] = true /\
  store_ok (run_ops [OpAdd "Ann" "1234567890"] []) = true /\
  run_ops [OpAdd "Ann" "1234567890"; OpEditPhone "Ann" "1234567890" "abc"] []
    = [("Ann", mkRecord "Ann" ["abc"] None)] /\
  store_ok
    (run_ops [OpAdd "Ann" "1234567890"; OpEditPhone "Ann" "1234567890" "abc"] [])
    = false.
Proof. repeat split. Qed.

(** ** The clock *)

(** The report depends on the clock read: the same book gives different
    reports when the method runs on 2024-06-03 and on 2024-06-24. *)
Lemma report_depends_on_clock :
  Book.get_birthdays_per_week monday_2024_06_03 book_scenarios
    = Ok [("Wednesday", ["Ann"])] /\
  Book.get_birthdays_per_week monday_2024_06_24 book_scenarios = Ok [] /\
  Book.get_birthdays_per_week monday_2024_06_03 book_scenarios
    <> Book.get_birthdays_per_week monday_2024_06_24 book_scenarios.
Proof.
  assert (H1 : Book.get_birthdays_per_week monday_2024_06_03 book_scenarios
               = Ok [("Wednesday", ["Ann"])]) by (vm_compute; reflexivity).
  assert (H2 : Book.get_birthdays_per_week monday_2024_06_24 book_scenarios
               = Ok []) by (vm_compute; reflexivity).
  split; [exact H1|]. split; [exact H2|].
  rewrite H1, H2. discriminate.
Qed.

(** ** validate_birthday *)

Lemma validate_birthday_strptime (value : string) :
  Birthday.validate_birthday value = true <-> exists dt, strptime value = Ok dt.
Proof.
  unfold Birthday.validate_birthday. split.
  - destruct (strptime value) as [dt|[]]; try discriminate. eauto.
  - intros (dt & ->). reflexivity.
Qed.

(** X30. Every text of the strict pattern DD.MM.YYYY that names a day of
    the calendar is accepted by [validate_birthday]. *)
Lemma strict_birthday_accepted (value : string) :
  strict_birthday value -> Birthday.validate_birthday value = true.
Proof.
  intros (ds & ms & ys & d & m & y & -> & Hd & Hm & Hy & V).
  apply validate_birthday_strptime, strptime_ok_iff.
  pose proof V as V'. apply check_date_fields_spec in V' as (_ & Hmr & Hdr).
  assert (days_in_month y m <= 31).
  { unfold days_in_month. month_split m Hmr; destruct (is_leap y); cbn; lia. }
  exists ds, ms, ys, d, m, y. repeat split; try assumption.
  - left. split; [assumption|lia].
  - left. split; [assumption|lia].
Qed.

(** C8 as the specification states it fails for a single-digit day or
    month:
    "1.2.2024" is accepted, and it is not of the strict pattern. *)
Lemma single_digit_birthday_accepted :
  Birthday.validate_birthday "1.2.2024" = true /\
  ~ strict_birthday "1.2.2024".
Proof.
  split; [vm_compute; reflexivity|].
  intros (ds & ms & ys & d & m & y & E & (a & b & -> & _ & Hb & _) & _).
  unfold dotted in E. cbn in E. injection E as _ <- _.
  discriminate Hb.
Qed.

(** Impossible dates and other separators are rejected. *)
Lemma validate_birthday_rejects :
  Birthday.validate_birthday "31.02.2024" = false /\
  Birthday.validate_birthday "30.02.2024" = false /\
  Birthday.validate_birthday "01-02-2024" = false /\
  Birthday.validate_birthday "01/02/2024" = false /\
  Birthday.validate_birthday "01.02.24" = false /\
  Birthday.validate_birthday "01.02.2024 " = false.
Proof. repeat split; vm_compute; reflexivity. Qed.

(** ** Commands *)

(** C9. After [add_contact] with a name that is not empty and a phone of
    ten digits, [find] on the name returns a record with that name and
    with exactly that phone, whatever the book held before. *)
Theorem add_then_find (book : AddressBook) (nm phone : string) :
  nm <> EmptyString ->
  Phone.validate_phone phone = true ->
  fst (Bot.add_contact [nm; phone] book) = Ok "Contact added."%string /\
  exists r,
    Book.find (snd (Bot.add_contact [nm; phone] book)) nm = Some r /\
    name r = nm /\ phones r = [phone] /\
    Rec.add_phone (mkRecord nm [] None) phone = Ok r.
Proof.
  intros Hn Hp.
  unfold Bot.add_contact, Bot.input_error, Bot.cbind, Bot.unpack2, Bot.ret.
  unfold Rec.init, Name.new, Rec.add_phone, Phone.new.
  destruct nm as [|c nm]; [contradiction|]. cbn [bind]. rewrite Hp. cbn.
  split; [reflexivity|].
  eexists. split; [apply get_set_same|]. cbn. repeat split.
Qed.

Lemma add_then_find_witness :
  "Ann"%string <> EmptyString /\
  Phone.validate_phone "0501111111" = true /\
  fst (Bot.add_contact ["Ann"; "0501111111"]%string book_bob)
    = Ok "Contact added."%string /\
  exists r,
    Book.find (snd (Bot.add_contact ["Ann"; "0501111111"]%string book_bob))
      "Ann" = Some r /\
    name r = "Ann"%string /\ phones r = ["0501111111"%string] /\
    Rec.add_phone (mkRecord "Ann" [] None) "0501111111" = Ok r.
Proof.
  split; [discriminate|]. split; [reflexivity|].
  apply (add_then_find book_bob "Ann" "0501111111"); [discriminate|reflexivity].
Defined.

(** C10. [change_contact] on a contact of the book with a text that is no
    phone answers with the message of the ValueError branch, and the book
    then holds the contact with no phone: [remove_phones] ran before
    [add_phone] raised. A contact that had a phone is thereby changed. *)
Theorem change_contact_invalid_phone (book : AddressBook) (nm new_phone : string)
    (r : record) :
  Book.find book nm = Some r ->
  Phone.validate_phone new_phone = false ->
  fst (Bot.change_contact [nm; new_phone] book)
    = Ok "Give me name and phone please."%string /\
  Book.find (snd (Bot.change_contact [nm; new_phone] book)) nm
    = Some (mkRecord (name r) [] (birthday r)) /\
  (phones r <> [] -> snd (Bot.change_contact [nm; new_phone] book) <> book).
Proof.
  intros Hf Hp.
  assert (E : Bot.change_contact [nm; new_phone] book
              = (Ok "Give me name and phone please."%string,
                 Dict.set book nm (Rec.remove_phones r))).
  { unfold Bot.change_contact, Bot.input_error, Bot.cbind, Bot.unpack2,
      Bot.ret, Bot.find_or_raise, Bot.call.
    rewrite Hf. unfold Book.find in *. rewrite Hf.
    rewrite get_set_same. unfold Rec.add_phone, Phone.new. rewrite Hp.
    reflexivity. }
  rewrite E. cbn [fst snd]. split; [reflexivity|].
  split; [apply get_set_same|].
  intros Hne Heq.
  assert (H : Dict.get (Dict.set book nm (Rec.remove_phones r)) nm = Some r)
    by (rewrite Heq; exact Hf).
  rewrite get_set_same in H. injection H as H.
  apply Hne. rewrite <- H. reflexivity.
Qed.

Lemma change_contact_invalid_phone_witness :
  Book.find book_bob "Bob" = Some (mkRecord "Bob" ["0502222222"] (Some "08.06.1995")) /\
  Phone.validate_phone "12345" = false /\
  fst (Bot.change_contact ["Bob"; "12345"]%string book_bob)
    = Ok "Give me name and phone please."%string /\
  Book.find (snd (Bot.change_contact ["Bob"; "12345"]%string book_bob)) "Bob"
    = Some (mkRecord "Bob" [] (Some "08.06.1995")).
Proof.
  split; [reflexivity|]. split; [reflexivity|].
  destruct (change_contact_invalid_phone book_bob "Bob" "12345"
              (mkRecord "Bob" ["0502222222"] (Some "08.06.1995"))
              eq_refl eq_refl) as (H1 & H2 & _).
  split; [exact H1|exact H2].
Defined.

(** * Further properties of the program *)

(** ** The buckets of the report *)

Lemma filed_append_to (rep : report) (d n day_of_week x : string) :
  filed (Book.append_to rep d n) day_of_week x
  <-> filed rep day_of_week x \/ (day_of_week = d /\ x = n).
Proof.
  unfold filed, Book.append_to. split.
  - intros (l & Hin & Hx).
    destruct (Dict.get rep d) as [l0|] eqn:Hget;
      apply In_set_inv in Hin as [(-> & ->)|Hin].
    + apply in_app_or in Hx as [Hx|[<-|[]]]; [|right; split; reflexivity].
      left. exists l0. split; [apply get_In; assumption|assumption].
    + left. exists l. split; assumption.
    + destruct Hx as [<-|[]]. right; split; reflexivity.
    + left. exists l. split; assumption.
  - intros [(l & Hin & Hx)|(-> & ->)].
    + destruct (Dict.get rep d) as [l0|] eqn:Hget.
      * apply (In_set_keep _ d _ (l0 ++ [n])%list) in Hin as [Hin|(-> & Hl)].
        -- exists l. split; assumption.
        -- assert (l0 = l) as -> by congruence.
           exists (l ++ [n])%list.
           split; [apply In_set_same|apply in_or_app; left; assumption].
      * apply (In_set_keep _ d _ [n]) in Hin as [Hin|(-> & Hl)].
        -- exists l. split; assumption.
        -- congruence.
    + destruct (Dict.get rep d) as [l0|].
      * exists (l0 ++ [n])%list.
        split; [apply In_set_same|apply in_or_app; right; left; reflexivity].
      * exists [n]. split; [apply In_set_same|left; reflexivity].
Qed.

(** A name is filed under a day exactly when the loop body returned that
    day for a contact of that name. *)
Lemma birthdays_loop_filed (today : date) (entries : list (string * record)) :
  forall acc rep,
    Book.birthdays_loop today entries acc = Ok rep ->
    forall day_of_week x,
      filed rep day_of_week x <->
      filed acc day_of_week x \/
      exists r b,
        In (x, r) entries /\ birthday r = Some b /\
        Book.day_of_week_for today b = Ok (Some day_of_week).
Proof.
  induction entries as [|[nm r] rest IH]; intros acc rep H dw x.
  - injection H as <-. split; [tauto|].
    intros [H|(r & b & [] & _)]. exact H.
  - cbn in H. unfold Rec.get_birthday in H.
    destruct (birthday r) as [b|] eqn:Hb.
    + apply bind_inv in H as (o & Ho & H). destruct o as [d|].
      * rewrite (IH _ _ H dw x), filed_append_to. split.
        -- intros [[Hacc|(-> & ->)]|(r' & b' & Hin & Hb' & Hd)].
           ++ left; assumption.
           ++ right. exists r, b. repeat split; try assumption.
              left; reflexivity.
           ++ right. exists r', b'. repeat split; try assumption.
              right; assumption.
        -- intros [Hacc|(r' & b' & [Hin|Hin] & Hb' & Hd)].
           ++ left; left; assumption.
           ++ injection Hin as -> ->. left; right.
              assert (b' = b) as -> by congruence.
              split; congruence.
           ++ right. exists r', b'. repeat split; assumption.
      * rewrite (IH _ _ H dw x). split.
        -- intros [Hacc|(r' & b' & Hin & Hb' & Hd)]; [left; assumption|].
           right. exists r', b'. repeat split; try assumption.
           right; assumption.
        -- intros [Hacc|(r' & b' & [Hin|Hin] & Hb' & Hd)].
           ++ left; assumption.
           ++ injection Hin as -> ->. congruence.
           ++ right. exists r', b'. repeat split; assumption.
    + rewrite (IH _ _ H dw x). split.
      * intros [Hacc|(r' & b' & Hin & Hb' & Hd)]; [left; assumption|].
        right. exists r', b'. repeat split; try assumption.
        right; assumption.
      * intros [Hacc|(r' & b' & [Hin|Hin] & Hb' & Hd)].
        -- left; assumption.
        -- injection Hin as -> ->. congruence.
        -- right. exists r', b'. repeat split; assumption.
Qed.

(** When the loop body files a contact, its candidate date exists, is less
    than seven days away and gives the day name. *)
Lemma day_of_week_for_inv (today : date) (bvalue day_of_week : string) :
  valid_date today ->
  Book.day_of_week_for today bvalue = Ok (Some day_of_week) ->
  exists c,
    candidate today bvalue = Ok c /\ sub_days c today < 7 /\
    day_of_week = strftime_A c.
Proof.
  intros Ht H. destruct (candidate today bvalue) as [c|e] eqn:Hc.
  - destruct (day_of_week_for_candidate today bvalue c Ht Hc) as (_ & E).
    rewrite E in H. exists c. split; [reflexivity|].
    destruct (Z.leb_spec 7 (sub_days c today)); [discriminate|].
    injection H as <-. split; [assumption|reflexivity].
  - rewrite (day_of_week_for_raises today bvalue e Hc) in H. discriminate.
Qed.

Lemma mod7_monday (o : Z) : (o + (7 - (o + 6) mod 7) + 6) mod 7 = 0.
Proof.
  replace (o + (7 - (o + 6) mod 7) + 6)
    with ((o + 6) - (o + 6) mod 7 + 1 * 7) by lia.
  rewrite Z.mod_add by lia.
  rewrite Zminus_mod_idemp_r, Z.sub_diag. reflexivity.
Qed.

(** The candidate date is never a Saturday or a Sunday. *)
Lemma shifted_birthday_weekday (today bday c : date) :
  valid_date today ->
  Book.shifted_birthday today bday = Ok c -> 0 <= weekday c <= 4.
Proof.
  intros Ht H. unfold Book.shifted_birthday in H.
  apply bind_inv in H as (c0 & H0 & H).
  apply rolled_birthday_spec in H0 as (V0 & _ & Hd & _ & _); [|assumption].
  destruct (weekend_shift_spec bday c0 c V0 Hd H) as (_ & E).
  pose proof (weekday_range c0) as R0.
  destruct (Z.ltb_spec 4 (weekday c0)).
  - unfold weekday in *. rewrite E, mod7_monday. lia.
  - unfold weekday in *. rewrite E, Z.add_0_r. lia.
Qed.

Lemma day_name_working (w : Z) :
  0 <= w <= 4 -> In (day_name w) working_days.
Proof.
  intros H. assert (E : w = 0 \/ w = 1 \/ w = 2 \/ w = 3 \/ w = 4) by lia.
  destruct E as [->|[->|[->|[->| ->]]]]; cbn; auto 10.
Qed.

(** The report keeps its keys distinct and no list empty. *)
Lemma append_to_wf (rep : report) (d n : string) :
  NoDup (Dict.keys rep) /\ (forall k l, In (k, l) rep -> l <> []) ->
  NoDup (Dict.keys (Book.append_to rep d n)) /\
  (forall k l, In (k, l) (Book.append_to rep d n) -> l <> []).
Proof.
  intros (Hnd & Hne). unfold Book.append_to.
  destruct (Dict.get rep d) as [l0|]; (split; [apply NoDup_keys_set; assumption|]);
    intros k l Hin; apply In_set_inv in Hin as [(-> & ->)|Hin];
    try (exact (Hne _ _ Hin)).
  - intros E. apply app_eq_nil in E as (_ & E). discriminate.
  - discriminate.
Qed.

Lemma birthdays_loop_wf (today : date) (entries : list (string * record)) :
  forall acc rep,
    Book.birthdays_loop today entries acc = Ok rep ->
    NoDup (Dict.keys acc) /\ (forall k l, In (k, l) acc -> l <> []) ->
    NoDup (Dict.keys rep) /\ (forall k l, In (k, l) rep -> l <> []).
Proof.
  induction entries as [|[nm r] rest IH]; intros acc rep H Hacc.
  - injection H as <-. exact Hacc.
  - cbn in H. unfold Rec.get_birthday in H.
    destruct (birthday r) as [b|]; [|exact (IH _ _ H Hacc)].
    apply bind_inv in H as (o & _ & H). destruct o as [d|].
    + apply (IH _ _ H). apply append_to_wf. exact Hacc.
    + exact (IH _ _ H Hacc).
Qed.

(** X1. In a report the scheduler returns, the day names are distinct, no
    list is empty, and every day name is one of Monday to Friday: a
    Saturday or Sunday bucket never occurs. *)
Theorem report_buckets_working_days (clock : datetime) (book : AddressBook)
    (rep : report) :
  valid_date (dt_date clock) ->
  Book.get_birthdays_per_week clock book = Ok rep ->
  NoDup (Dict.keys rep) /\
  forall day_of_week l,
    In (day_of_week, l) rep -> l <> [] /\ In day_of_week working_days.
Proof.
  intros Ht Hrep. unfold Book.get_birthdays_per_week in Hrep. cbv zeta in Hrep.
  destruct (birthdays_loop_wf _ _ _ _ Hrep) as (Hnd & Hne).
  { split; [constructor|intros k l []]. }
  split; [exact Hnd|]. intros dw l Hin. split; [exact (Hne _ _ Hin)|].
  destruct l as [|x l]; [exfalso; exact (Hne _ _ Hin eq_refl)|].
  assert (Hf : filed rep dw x) by (exists (x :: l); split; [assumption|left; reflexivity]).
  apply (birthdays_loop_filed _ _ _ _ Hrep) in Hf
    as [(l' & [] & _)|(r & b & _ & _ & Hd)].
  apply (day_of_week_for_inv _ _ _ Ht) in Hd as (c & Hc & _ & ->).
  apply candidate_inv in Hc as (bday & _ & Hs).
  apply day_name_working. exact (shifted_birthday_weekday _ _ _ Ht Hs).
Qed.

Lemma report_buckets_working_days_witness :
  valid_date (dt_date monday_2024_06_03) /\
  Book.get_birthdays_per_week monday_2024_06_03 book_scenarios
    = Ok [("Wednesday", ["Ann"])]%string /\
  NoDup (Dict.keys [("Wednesday", ["Ann"])]%string) /\
  forall day_of_week l,
    In (day_of_week, l) [("Wednesday", ["Ann"])]%string ->
    l <> [] /\ In day_of_week working_days.
Proof.
  assert (Hv : valid_date (dt_date monday_2024_06_03)) by reflexivity.
  assert (Hr : Book.get_birthdays_per_week monday_2024_06_03 book_scenarios
               = Ok [("Wednesday", ["Ann"])]%string) by (vm_compute; reflexivity).
  split; [exact Hv|]. split; [exact Hr|].
  exact (report_buckets_working_days monday_2024_06_03 book_scenarios _ Hv Hr).
Defined.

(** X2. A contact whose candidate date can be built is filed under a day
    name exactly when that name is the weekday of its candidate date and
    the date is less than seven days after today; so it is filed at most
    once. *)
Theorem bucket_is_candidate_weekday (clock : datetime) (book : AddressBook)
    (rep : report) (nm : string) (r : record) (b : string) (c : date) :
  valid_date (dt_date clock) ->
  NoDup (Dict.keys book) ->
  Book.get_birthdays_per_week clock book = Ok rep ->
  Book.find book nm = Some r -> birthday r = Some b ->
  candidate (dt_date clock) b = Ok c ->
  forall day_of_week,
    filed rep day_of_week nm <->
    day_of_week = strftime_A c /\ sub_days c (dt_date clock) < 7.
Proof.
  intros Ht Hnd Hrep Hfind Hb Hc dw.
  unfold Book.get_birthdays_per_week in Hrep. cbv zeta in Hrep.
  destruct (day_of_week_for_candidate _ _ _ Ht Hc) as (_ & Hdw).
  rewrite (birthdays_loop_filed _ _ _ _ Hrep dw nm). split.
  - intros [(l & [] & _)|(r' & b' & Hin & Hb' & Hd)].
    apply (In_get _ _ _ Hnd) in Hin. unfold Book.find in Hfind.
    assert (r' = r) as -> by congruence.
    assert (b' = b) as -> by congruence.
    rewrite Hdw in Hd.
    destruct (Z.leb_spec 7 (sub_days c (dt_date clock))); [discriminate|].
    injection Hd as <-. split; [reflexivity|assumption].
  - intros (-> & Hw). right. exists r, b.
    repeat split; [apply get_In; exact Hfind|exact Hb|].
    rewrite Hdw. destruct (Z.leb_spec 7 (sub_days c (dt_date clock)));
      [lia|reflexivity].
Qed.

Lemma bucket_is_candidate_weekday_witness :
  filed [("Wednesday", ["Ann"])]%string "Wednesday" "Ann" <->
  "Wednesday"%string = strftime_A (mkdate 2024 6 5) /\
  sub_days (mkdate 2024 6 5) (dt_date monday_2024_06_03) < 7.
Proof.
  assert (Hnd : NoDup (Dict.keys book_scenarios)).
  { repeat constructor; cbn; intuition discriminate. }
  apply (bucket_is_candidate_weekday monday_2024_06_03 book_scenarios
           [("Wednesday", ["Ann"])]%string "Ann"
           (snd (contact "Ann" "0501111111" "05.06.1990")) "05.06.1990"
           (mkdate 2024 6 5)).
  - reflexivity.
  - exact Hnd.
  - vm_compute; reflexivity.
  - reflexivity.
  - reflexivity.
  - vm_compute; reflexivity.
Defined.

(** X3. Every name in a report is the name of a contact of the book that
    has a birthday set: a contact without a birthday, and a name the book
    does not hold, are in no bucket. *)
Theorem reported_has_birthday (clock : datetime) (book : AddressBook)
    (rep : report) (nm : string) :
  NoDup (Dict.keys book) ->
  Book.get_birthdays_per_week clock book = Ok rep ->
  reported rep nm ->
  exists r b, Book.find book nm = Some r /\ birthday r = Some b.
Proof.
  intros Hnd Hrep Hin. unfold Book.get_birthdays_per_week in Hrep.
  apply (birthdays_loop_reported _ _ _ _ Hrep) in Hin
    as [(dw & l & [] & _)|(r & b & dw & Hin & Hb & _)].
  exists r, b. split; [exact (In_get _ _ _ Hnd Hin)|exact Hb].
Qed.

Lemma reported_has_birthday_witness :
  exists r b,
    Book.find book_scenarios "Ann" = Some r /\ birthday r = Some b.
Proof.
  assert (Hnd : NoDup (Dict.keys book_scenarios)).
  { repeat constructor; cbn; intuition discriminate. }
  apply (reported_has_birthday monday_2024_06_03 book_scenarios
           [("Wednesday", ["Ann"])]%string "Ann" Hnd).
  - vm_compute; reflexivity.
  - exists "Wednesday"%string, ["Ann"%string].
    split; left; reflexivity.
Defined.

(** ** What the scheduler raises *)

Lemma new_raises (y m d : Z) (e : exn) : new y m d = Raise e -> e = ValueError.
Proof. unfold new. destruct (check_date_fields y m d); congruence. Qed.

Lemma int_raises (s : string) (e : exn) : int s = Raise e -> e = ValueError.
Proof.
  unfold int. destruct (lstrip s) as [|c s']; [congruence|].
  destruct (is_digit c); [|congruence].
  destruct (digits_value 0 (String c s')); congruence.
Qed.

Lemma strptime_raises (s : string) (e : exn) :
  strptime s = Raise e -> e = ValueError.
Proof.
  unfold strptime.
  destruct (rmatch format_regex s [] _) as [[[found rest] g]|]; [|congruence].
  destruct (negb (len s =? len found)); [congruence|].
  destruct (int (group g "d")) as [d|e1] eqn:E1; cbn [bind];
    [|intros [= <-]; exact (int_raises _ _ E1)].
  destruct (int (group g "m")) as [m|e2] eqn:E2; cbn [bind];
    [|intros [= <-]; exact (int_raises _ _ E2)].
  destruct (int (group g "Y")) as [y|e3] eqn:E3; cbn [bind];
    [|intros [= <-]; exact (int_raises _ _ E3)].
  apply new_raises.
Qed.

Lemma candidate_raises (today : date) (bvalue : string) (e : exn) :
  candidate today bvalue = Raise e -> e = ValueError.
Proof.
  unfold candidate, Birthday.to_datetime.
  destruct (strptime bvalue) as [bday|e0] eqn:E0; cbn [bind];
    [|intros [= <-]; exact (strptime_raises _ _ E0)].
  unfold Book.shifted_birthday, Book.rolled_birthday, replace_year.
  destruct (new (year today) (month bday) (day bday)) as [c0|e1] eqn:E1;
    cbn [bind]; [|intros [= <-]; exact (new_raises _ _ _ _ E1)].
  destruct (lt c0 today).
  - destruct (new (year today + 1) (month c0) (day c0)) as [c1|e2] eqn:E2;
      cbn [bind]; [|intros [= <-]; exact (new_raises _ _ _ _ E2)].
    unfold Book.weekend_shift, replace_day.
    destruct (4 <? weekday c1); [apply new_raises|congruence].
  - cbn [bind]. unfold Book.weekend_shift, replace_day.
    destruct (4 <? weekday c0); [apply new_raises|congruence].
Qed.

Lemma day_of_week_for_raises_value (today : date) (bvalue : string) (e : exn) :
  valid_date today ->
  Book.day_of_week_for today bvalue = Raise e -> e = ValueError.
Proof.
  intros Ht H. destruct (candidate today bvalue) as [c|e0] eqn:Hc.
  - destruct (day_of_week_for_candidate today bvalue c Ht Hc) as (_ & E).
    rewrite E in H. discriminate.
  - rewrite (day_of_week_for_raises today bvalue e0 Hc) in H.
    injection H as <-. exact (candidate_raises _ _ _ Hc).
Qed.

Lemma birthdays_loop_raises_value (today : date)
    (entries : list (string * record)) :
  valid_date today ->
  forall acc e,
    Book.birthdays_loop today entries acc = Raise e -> e = ValueError.
Proof.
  intros Ht. induction entries as [|[nm r] rest IH]; intros acc e H;
    [discriminate|].
  cbn in H. unfold Rec.get_birthday in H.
  destruct (birthday r) as [b|]; [|exact (IH _ _ H)].
  destruct (Book.day_of_week_for today b) as [[d|]|e0] eqn:E; cbn [bind] in H.
  - exact (IH _ _ H).
  - exact (IH _ _ H).
  - injection H as <-. exact (day_of_week_for_raises_value _ _ _ Ht E).
Qed.

(** X4. One contact whose candidate date cannot be built takes the whole
    report away: the scheduler then raises ValueError, whatever the other
    contacts are. *)
Theorem one_failure_loses_report (clock : datetime) (book : AddressBook)
    (nm : string) (r : record) (b : string) (e : exn) :
  valid_date (dt_date clock) ->
  Book.find book nm = Some r -> birthday r = Some b ->
  candidate (dt_date clock) b = Raise e ->
  Book.get_birthdays_per_week clock book = Raise ValueError.
Proof.
  intros Ht Hfind Hb Hc. unfold Book.get_birthdays_per_week. cbv zeta.
  destruct (birthdays_loop_raises (dt_date clock) book [] nm r b e)
    as (e' & He').
  - apply get_In. exact Hfind.
  - exact Hb.
  - apply day_of_week_for_raises. exact Hc.
  - rewrite He'. f_equal.
    exact (birthdays_loop_raises_value _ _ Ht _ _ He').
Qed.

Lemma one_failure_loses_report_witness :
  valid_date (dt_date monday_2023_06_05) /\
  Book.get_birthdays_per_week monday_2023_06_05
    (book_scenarios ++ book_leap_day)%list = Raise ValueError.
Proof.
  split; [reflexivity|].
  apply (one_failure_loses_report monday_2023_06_05
           (book_scenarios ++ book_leap_day)%list "Fay"
           (snd (contact "Fay" "0506666666" "29.02.2000")) "29.02.2000"
           ValueError).
  - reflexivity.
  - reflexivity.
  - reflexivity.
  - vm_compute; reflexivity.
Defined.

(** X5. The scheduler raises nothing but ValueError, the exception that
    [input_error] catches. *)
Theorem scheduler_raises_only_value_error (clock : datetime)
    (book : AddressBook) (e : exn) :
  valid_date (dt_date clock) ->
  Book.get_birthdays_per_week clock book = Raise e -> e = ValueError.
Proof.
  intros Ht H. unfold Book.get_birthdays_per_week in H.
  exact (birthdays_loop_raises_value _ _ Ht _ _ H).
Qed.

Lemma scheduler_raises_only_value_error_witness :
  valid_date (dt_date monday_2024_06_24) /\
  forall e,
    Book.get_birthdays_per_week monday_2024_06_24 book_month_end = Raise e ->
    e = ValueError.
Proof.
  split; [reflexivity|]. intros e.
  apply (scheduler_raises_only_value_error monday_2024_06_24 book_month_end e).
  reflexivity.
Defined.

(** ** The next occurrence of a birthday *)

Lemma next_year_ordinal (y m d : Z) :
  1 <= m <= 12 ->
  ymd2ord (y + 1) m d - ymd2ord y m d <= 366.
Proof.
  intros Hm. unfold ymd2ord, days_before_month.
  rewrite days_before_year_succ. unfold days_in_year.
  destruct (is_leap_cases y) as [(-> & H4 & _)|(-> & _)];
    destruct (is_leap_cases (y + 1)) as [(-> & H4' & _)|(-> & _)];
    destruct (Z.ltb_spec 2 m); cbn [andb]; lia.
Qed.

(** X6. The date the scheduler starts from is the next occurrence of the
    birthday: it has the month and day of the stored birthday, it is in
    this year or the next, and it lies today or at most 365 days ahead. *)
Theorem rolled_birthday_next_occurrence (today bday c : date) :
  valid_date today ->
  Book.rolled_birthday today bday = Ok c ->
  month c = month bday /\ day c = day bday /\
  (year c = year today \/ year c = year today + 1) /\
  0 <= sub_days c today <= 365.
Proof.
  intros Ht H.
  destruct (rolled_birthday_spec today bday c Ht H) as (V & Hm & Hd & Hy & Hle).
  repeat split; try assumption; [unfold sub_days; lia|].
  unfold Book.rolled_birthday in H.
  apply bind_inv in H as (c0 & H0 & H).
  apply new_inv in H0 as (-> & V0).
  pose proof (toordinal_range today Ht) as Rt.
  pose proof Ht as Ht'.
  apply valid_date_spec in Ht' as (_ & Htm & Htd).
  pose proof (day_of_year_bounds _ _ _ Htm Htd) as Bt.
  pose proof (days_in_year_pos (year today)) as Py.
  destruct (lt _ today) eqn:Hlt.
  - apply new_inv in H as (-> & V1).
    apply toordinal_lt in Hlt; [|assumption|assumption].
    apply valid_date_spec in V0 as (_ & Hm0 & _). cbn in Hm0.
    pose proof (next_year_ordinal (year today) (month bday) (day bday) Hm0).
    unfold sub_days, toordinal in *. cbn in *. lia.
  - injection H as <-.
    apply valid_date_spec in V0 as (_ & Hm0 & Hd0). cbn in Hm0, Hd0.
    pose proof (day_of_year_bounds _ _ _ Hm0 Hd0) as Bc.
    unfold sub_days, toordinal, ymd2ord in *. cbn in *. lia.
Qed.

Lemma rolled_birthday_next_occurrence_witness :
  valid_date (dt_date monday_2024_06_03) /\
  Book.rolled_birthday (dt_date monday_2024_06_03) (mkdate 1980 6 2)
    = Ok (mkdate 2025 6 2) /\
  month (mkdate 2025 6 2) = month (mkdate 1980 6 2) /\
  day (mkdate 2025 6 2) = day (mkdate 1980 6 2) /\
  (year (mkdate 2025 6 2) = year (dt_date monday_2024_06_03) \/
   year (mkdate 2025 6 2) = year (dt_date monday_2024_06_03) + 1) /\
  0 <= sub_days (mkdate 2025 6 2) (dt_date monday_2024_06_03) <= 365.
Proof.
  split; [reflexivity|]. split; [reflexivity|].
  exact (rolled_birthday_next_occurrence (dt_date monday_2024_06_03)
           (mkdate 1980 6 2) (mkdate 2025 6 2) eq_refl eq_refl).
Defined.

(** ** Records *)

Lemma find_phone_in_spec (ps : list string) (phone : string) :
  (In phone ps -> Rec.find_phone_in ps phone = Some phone) /\
  (~ In phone ps -> Rec.find_phone_in ps phone = None).
Proof.
  induction ps as [|p ps (IH1 & IH2)]; cbn; [split; [intros []|reflexivity]|].
  destruct (String.eqb_spec p phone) as [->|Hne]; split; intros H.
  - reflexivity.
  - exfalso. apply H. left; reflexivity.
  - destruct H as [H|H]; [contradiction|exact (IH1 H)].
  - apply IH2. intros Hin. apply H. right; exact Hin.
Qed.

(** X7. [remove_phone] takes out every phone equal to the given text and
    keeps the others: afterwards [find_phone] does not find the text, every
    other phone is in the list exactly when it was, and a record that did
    not hold the text is returned as it was. *)
Theorem remove_phone_removes_all (self : record) (phone : string) :
  ~ In phone (phones (Rec.remove_phone self phone)) /\
  Rec.find_phone (Rec.remove_phone self phone) phone = None /\
  (forall p, p <> phone ->
     (In p (phones (Rec.remove_phone self phone)) <-> In p (phones self))) /\
  (~ In phone (phones self) -> Rec.remove_phone self phone = self).
Proof.
  assert (Hn : ~ In phone (phones (Rec.remove_phone self phone))).
  { cbn. intros H. apply filter_In in H as (_ & H).
    rewrite String.eqb_refl in H. discriminate. }
  split; [exact Hn|]. split; [exact (proj2 (find_phone_in_spec _ _) Hn)|].
  split.
  - intros p Hp. cbn. rewrite filter_In. split; [tauto|].
    intros H. split; [exact H|].
    destruct (String.eqb_spec p phone); [contradiction|reflexivity].
  - intros Habs. clear Hn. destruct self as [n ps b].
    unfold Rec.remove_phone. cbn in *.
    f_equal. induction ps as [|p ps IH]; cbn; [reflexivity|].
    destruct (String.eqb_spec p phone) as [->|Hne].
    + exfalso. apply Habs. left; reflexivity.
    + cbn. f_equal. apply IH. intros H. apply Habs. right; exact H.
Qed.

(** X8. [add_phone] with a text of ten digits puts it at the end of the
    list, where [find_phone] finds it, and keeps every phone found before;
    with any other text it raises ValueError. *)
Theorem add_phone_then_find (self : record) (phone : string) :
  (Phone.validate_phone phone = true ->
   exists r,
     Rec.add_phone self phone = Ok r /\
     phones r = (phones self ++ [phone])%list /\
     Rec.find_phone r phone = Some phone /\
     forall q, Rec.find_phone self q = Some q -> Rec.find_phone r q = Some q)
  /\
  (Phone.validate_phone phone = false ->
   Rec.add_phone self phone = Raise ValueError).
Proof.
  unfold Rec.add_phone, Phone.new. split; intros Hp; rewrite Hp; cbn;
    [|reflexivity].
  eexists. split; [reflexivity|]. cbn. split; [reflexivity|].
  unfold Rec.find_phone. cbn. split.
  - apply find_phone_in_spec. apply in_or_app. right; left; reflexivity.
  - intros q Hq. apply find_phone_in_spec. apply in_or_app. left.
    destruct (in_dec string_dec q (phones self)) as [Hin|Hnin];
      [exact Hin|].
    apply find_phone_in_spec in Hnin. unfold Rec.find_phone in Hq. congruence.
Qed.

(** ** The book *)

Lemma get_del_other {V : Type} (d : Dict.dict V) (k k' : string) :
  k' <> k -> Dict.get (Dict.del d k) k' = Dict.get d k'.
Proof.
  intros Hne. induction d as [|[k0 v0] d IH]; cbn; [reflexivity|].
  destruct (String.eqb_spec k0 k) as [->|Hk]; cbn.
  - destruct (String.eqb_spec k k'); [congruence|reflexivity].
  - rewrite IH. reflexivity.
Qed.

Lemma get_del_same {V : Type} (d : Dict.dict V) (k : string) :
  NoDup (Dict.keys d) -> Dict.get (Dict.del d k) k = None.
Proof.
  induction d as [|[k0 v0] d IH]; cbn; [reflexivity|].
  intros Hnd. inversion Hnd as [|? ? Hnot Hnd']; subst.
  destruct (String.eqb_spec k0 k) as [->|Hk]; cbn.
  - destruct (Dict.get d k) as [v|] eqn:E; [|reflexivity].
    exfalso. apply Hnot. apply get_In in E.
    change k with (fst (k, v)). apply in_map. exact E.
  - destruct (String.eqb_spec k0 k); [contradiction|]. apply IH. exact Hnd'.
Qed.

Lemma In_del {V : Type} (d : Dict.dict V) (k k' : string) (v : V) :
  In (k', v) (Dict.del d k) -> In (k', v) d.
Proof.
  induction d as [|[k0 v0] d IH]; cbn; [tauto|].
  destruct (String.eqb_spec k0 k) as [->|Hk]; cbn; [tauto|].
  intros [H|H]; [left; exact H|right; exact (IH H)].
Qed.

Lemma get_None_del {V : Type} (d : Dict.dict V) (k : string) :
  Dict.get d k = None -> Dict.del d k = d.
Proof.
  induction d as [|[k0 v0] d IH]; cbn; [reflexivity|].
  destruct (String.eqb_spec k0 k) as [->|Hk]; [discriminate|].
  intros H. rewrite (IH H). reflexivity.
Qed.

(** X9. After [delete] the name is not found, every other name is found as
    before, the remaining contacts keep their order, and deleting a name
    the book does not hold changes nothing. *)
Theorem delete_then_find (book : AddressBook) (nm : string) :
  NoDup (Dict.keys book) ->
  Book.find (Book.delete book nm) nm = None /\
  (forall nm', nm' <> nm ->
     Book.find (Book.delete book nm) nm' = Book.find book nm') /\
  Dict.keys (Book.delete book nm)
    = filter (fun k => negb (String.eqb k nm)) (Dict.keys book) /\
  (Book.find book nm = None -> Book.delete book nm = book).
Proof.
  intros Hnd. unfold Book.delete, Book.find.
  assert (Hk : Dict.keys (Dict.del book nm)
               = filter (fun k => negb (String.eqb k nm)) (Dict.keys book)).
  { clear -Hnd. induction book as [|[k0 v0] d IH]; cbn; [reflexivity|].
    inversion Hnd as [|? ? Hnot Hnd']; subst.
    destruct (String.eqb_spec k0 nm) as [->|Hk]; cbn.
    - symmetry. apply forallb_filter_id. apply forallb_forall.
      intros x Hx. destruct (String.eqb_spec x nm); [subst; contradiction|reflexivity].
    - unfold Dict.keys in IH. rewrite (IH Hnd'). reflexivity. }
  destruct (Dict.get book nm) as [r|] eqn:E.
  - split; [apply get_del_same; exact Hnd|].
    split; [intros nm' Hne; apply get_del_other; exact Hne|].
    split; [exact Hk|discriminate].
  - split; [exact E|]. split; [reflexivity|].
    split; [|reflexivity]. rewrite <- Hk, (get_None_del _ _ E). reflexivity.
Qed.

Lemma delete_then_find_witness :
  NoDup (Dict.keys book_scenarios) /\
  Book.find (Book.delete book_scenarios "Bob") "Bob" = None /\
  Dict.keys (Book.delete book_scenarios "Bob") = ["Ann"; "Cid"; "Dan"]%string.
Proof.
  assert (Hnd : NoDup (Dict.keys book_scenarios)).
  { repeat constructor; cbn; intuition discriminate. }
  split; [exact Hnd|].
  destruct (delete_then_find book_scenarios "Bob" Hnd) as (H1 & _ & H3 & _).
  split; [exact H1|exact H3].
Defined.

(** X10. [add_record] stores the record under its name, replacing what was
    there, phones and birthday included; the other contacts stay as they
    were, a name the book already held keeps its place in the order of
    iteration, and a new name goes to the end. *)
Theorem add_record_then_find (book : AddressBook) (r : record) :
  Book.find (Book.add_record book r) (name r) = Some r /\
  (forall nm, nm <> name r ->
     Book.find (Book.add_record book r) nm = Book.find book nm) /\
  Dict.keys (Book.add_record book r)
    = match Book.find book (name r) with
      | Some _ => Dict.keys book
      | None => (Dict.keys book ++ [name r])%list
      end.
Proof.
  unfold Book.add_record, Book.find. split; [apply get_set_same|].
  split; [intros nm Hne; apply get_set_other; exact Hne|apply keys_set].
Qed.

(** ** Invariants of the book *)

Lemma call_keys (nm : string) (method : record -> result record)
    (book : AddressBook) :
  (forall r r', method r = Ok r' -> name r' = name r) ->
  NoDup (Dict.keys book) /\ keyed_by_name book ->
  NoDup (Dict.keys (snd (Bot.call nm method book))) /\
  keyed_by_name (snd (Bot.call nm method book)).
Proof.
  intros Hm (Hnd & Hk). unfold Bot.call, Book.find.
  destruct (Dict.get book nm) as [r|] eqn:Hg; [|split; assumption].
  destruct (method r) as [r'|e] eqn:Hr; [|split; assumption].
  cbn. split; [apply NoDup_keys_set; exact Hnd|].
  intros k x Hin. apply In_set_inv in Hin as [(-> & ->)|Hin];
    [|exact (Hk _ _ Hin)].
  rewrite (Hm _ _ Hr). apply Hk. apply get_In. exact Hg.
Qed.

Lemma add_contact_keys (args : list string) (book : AddressBook) :
  NoDup (Dict.keys book) /\ keyed_by_name book ->
  NoDup (Dict.keys (snd (Bot.add_contact args book))) /\
  keyed_by_name (snd (Bot.add_contact args book)).
Proof.
  intros (Hnd & Hk).
  unfold Bot.add_contact, Bot.input_error, Bot.cbind, Bot.unpack2.
  destruct args as [|nm [|phone [|x args]]]; try (split; assumption).
  cbn. unfold Rec.init, Name.new.
  destruct nm as [|c nm]; cbn; [split; assumption|].
  unfold Rec.add_phone, Phone.new.
  destruct (Phone.validate_phone phone); cbn; [|split; assumption].
  unfold Book.add_record. cbn.
  split; [apply NoDup_keys_set; exact Hnd|].
  intros k x Hin. apply In_set_inv in Hin as [(-> & ->)|Hin];
    [reflexivity|exact (Hk _ _ Hin)].
Qed.

Lemma add_phone_name (r r' : record) (p : string) :
  Rec.add_phone r p = Ok r' -> name r' = name r.
Proof.
  unfold Rec.add_phone, Phone.new.
  destruct (Phone.validate_phone p); cbn; [|discriminate].
  intros [= <-]. reflexivity.
Qed.

Lemma add_birthday_name (r r' : record) (b : string) :
  Rec.add_birthday r b = Ok r' -> name r' = name r.
Proof.
  unfold Rec.add_birthday, Birthday.new.
  destruct (Birthday.validate_birthday b); cbn; [|discriminate].
  intros [= <-]. reflexivity.
Qed.

Lemma apply_op_keys (o : op) (book : AddressBook) :
  NoDup (Dict.keys book) /\ keyed_by_name book ->
  NoDup (Dict.keys (apply_op o book)) /\ keyed_by_name (apply_op o book).
Proof.
  intros H. destruct o as [nm p|nm|nm p|nm p|nm old new|nm b]; cbn [apply_op].
  - apply add_contact_keys; exact H.
  - destruct H as (Hnd & Hk). unfold Book.delete.
    destruct (Dict.get book nm); [|split; assumption].
    split; [apply NoDup_keys_del; exact Hnd|].
    intros k x Hin. exact (Hk _ _ (In_del _ _ _ _ Hin)).
  - apply call_keys; [|exact H]. intros r r'. apply add_phone_name.
  - apply call_keys; [|exact H]. intros r r' [= <-]. reflexivity.
  - apply call_keys; [|exact H]. intros r r' [= <-]. reflexivity.
  - apply call_keys; [|exact H]. intros r r'. apply add_birthday_name.
Qed.

(** X11. In every book that a sequence of store and record operations
    builds from the empty book, no name is held twice, every record is
    held under its own name, and so [find] of a name returns a record of
    that name. *)
Theorem reachable_book_keys (ops : list op) :
  NoDup (Dict.keys (run_ops ops [])) /\
  keyed_by_name (run_ops ops []) /\
  forall nm r, Book.find (run_ops ops []) nm = Some r -> name r = nm.
Proof.
  assert (H : forall book,
             NoDup (Dict.keys book) /\ keyed_by_name book ->
             NoDup (Dict.keys (run_ops ops book)) /\
             keyed_by_name (run_ops ops book)).
  { unfold run_ops. induction ops as [|o ops IH]; intros book Hb; cbn;
      [exact Hb|].
    apply IH. apply apply_op_keys. exact Hb. }
  destruct (H []) as (Hnd & Hk).
  { split; [constructor|intros k r []]. }
  split; [exact Hnd|]. split; [exact Hk|].
  intros nm r Hf. apply Hk. apply get_In. exact Hf.
Qed.

(** ** Command handlers *)

(** X12. [change_contact] on a contact of the book with a text of ten
    digits answers "Contact updated."; the contact then has exactly that
    one phone, whatever phones it had, keeps its birthday, and the other
    contacts are as before. *)
Theorem change_contact_valid_phone (book : AddressBook) (nm new_phone : string)
    (r : record) :
  Book.find book nm = Some r ->
  Phone.validate_phone new_phone = true ->
  fst (Bot.change_contact [nm; new_phone] book) = Ok "Contact updated."%string /\
  Book.find (snd (Bot.change_contact [nm; new_phone] book)) nm
    = Some (mkRecord (name r) [new_phone] (birthday r)) /\
  forall nm', nm' <> nm ->
    Book.find (snd (Bot.change_contact [nm; new_phone] book)) nm'
    = Book.find book nm'.
Proof.
  intros Hf Hp.
  assert (E : Bot.change_contact [nm; new_phone] book
              = (Ok "Contact updated."%string,
                 Dict.set (Dict.set book nm (Rec.remove_phones r)) nm
                   (mkRecord (name r) [new_phone] (birthday r)))).
  { unfold Bot.change_contact, Bot.input_error, Bot.cbind, Bot.unpack2,
      Bot.ret, Bot.find_or_raise, Bot.call.
    rewrite Hf. unfold Book.find in *. rewrite Hf.
    rewrite get_set_same. unfold Rec.add_phone, Phone.new. rewrite Hp.
    reflexivity. }
  rewrite E. cbn [fst snd]. unfold Book.find.
  split; [reflexivity|]. split; [apply get_set_same|].
  intros nm' Hne. rewrite !get_set_other by exact Hne. reflexivity.
Qed.

Lemma change_contact_valid_phone_witness :
  Book.find book_scenarios "Bob"
    = Some (mkRecord "Bob" ["0502222222"] (Some "08.06.1995")) /\
  Phone.validate_phone "0509999999" = true /\
  fst (Bot.change_contact ["Bob"; "0509999999"]%string book_scenarios)
    = Ok "Contact updated."%string /\
  Book.find (snd (Bot.change_contact ["Bob"; "0509999999"]%string book_scenarios))
    "Bob" = Some (mkRecord "Bob" ["0509999999"] (Some "08.06.1995")).
Proof.
  split; [reflexivity|]. split; [reflexivity|].
  destruct (change_contact_valid_phone book_scenarios "Bob" "0509999999"
              (mkRecord "Bob" ["0502222222"] (Some "08.06.1995"))
              eq_refl eq_refl) as (H1 & H2 & _).
  split; [exact H1|exact H2].
Defined.

(** X13. [change_contact] for a name the book does not hold answers that
    the contact was not found, naming it, and leaves the book as it was;
    it does not add the contact. *)
Theorem change_contact_unknown (book : AddressBook) (nm new_phone : string) :
  Book.find book nm = None ->
  Bot.change_contact [nm; new_phone] book
  = (Ok ("Contact '" ++ nm ++ "' not found.")%string, book).
Proof.
  intros Hf.
  unfold Bot.change_contact, Bot.input_error, Bot.cbind, Bot.unpack2,
    Bot.ret, Bot.find_or_raise.
  rewrite Hf. reflexivity.
Qed.

Lemma change_contact_unknown_witness :
  Book.find book_bob "Ann" = None /\
  Bot.change_contact ["Ann"; "0501111111"]%string book_bob
  = (Ok "Contact 'Ann' not found."%string, book_bob).
Proof.
  split; [reflexivity|].
  exact (change_contact_unknown book_bob "Ann" "0501111111" eq_refl).
Defined.

(** X14. [add_contact] stores nothing unless it is given exactly a name
    that is not empty and a text of ten digits: in every other case it
    answers "Give me name and phone please." and the book is as before. *)
Theorem add_contact_rejects (args : list string) (book : AddressBook) :
  ~ (exists nm phone,
       args = [nm; phone] /\ nm <> EmptyString /\
       Phone.validate_phone phone = true) ->
  Bot.add_contact args book
  = (Ok "Give me name and phone please."%string, book).
Proof.
  intros Hn.
  unfold Bot.add_contact, Bot.input_error, Bot.cbind, Bot.unpack2, Bot.ret,
    Bot.raise.
  destruct args as [|nm [|phone [|x args]]]; try reflexivity.
  unfold Rec.init, Name.new. destruct nm as [|c nm]; [reflexivity|].
  cbn [bind]. unfold Rec.add_phone, Phone.new.
  destruct (Phone.validate_phone phone) eqn:Hp; [|reflexivity].
  exfalso. apply Hn. exists (String c nm), phone.
  repeat split; [discriminate|exact Hp].
Qed.

Lemma add_contact_rejects_witness :
  Bot.add_contact ["Ann"; "12345"]%string book_bob
  = (Ok "Give me name and phone please."%string, book_bob).
Proof.
  apply (add_contact_rejects ["Ann"; "12345"]%string book_bob).
  intros (nm & phone & [= <- <-] & _ & H). discriminate H.
Defined.

(** X15. [add_contact] touches no contact but the one it names: every
    other name is found as before, whether the command succeeded or not. *)
Theorem add_contact_keeps_others (args : list string) (book : AddressBook)
    (nm' : string) :
  (forall nm phone, args = [nm; phone] -> nm' <> nm) ->
  Book.find (snd (Bot.add_contact args book)) nm' = Book.find book nm'.
Proof.
  intros Hne.
  unfold Bot.add_contact, Bot.input_error, Bot.cbind, Bot.unpack2, Bot.ret,
    Bot.raise.
  destruct args as [|nm [|phone [|x args]]]; try reflexivity.
  unfold Rec.init, Name.new. destruct nm as [|c nm]; [reflexivity|].
  cbn [bind]. unfold Rec.add_phone, Phone.new.
  destruct (Phone.validate_phone phone); [|reflexivity].
  cbn. unfold Book.find, Book.add_record. cbn.
  apply get_set_other. exact (Hne _ _ eq_refl).
Qed.

Lemma add_contact_keeps_others_witness :
  Book.find (snd (Bot.add_contact ["Ann"; "0501111111"]%string book_bob)) "Bob"
  = Book.find book_bob "Bob".
Proof.
  apply (add_contact_keeps_others ["Ann"; "0501111111"]%string book_bob "Bob").
  intros nm phone [= <- <-]. discriminate.
Defined.

(** X16. After [add_birthday] with a text that [validate_birthday] accepts,
    on a contact of the book, [show_birthday] answers with that very text,
    and the contact keeps its name and phones. *)
Theorem add_birthday_then_show (book : AddressBook) (nm bday : string)
    (r : record) :
  Book.find book nm = Some r ->
  Birthday.validate_birthday bday = true ->
  fst (Bot.add_birthday [nm; bday] book) = Ok "Birthday added."%string /\
  Book.find (snd (Bot.add_birthday [nm; bday] book)) nm
    = Some (mkRecord (name r) (phones r) (Some bday)) /\
  fst (Bot.show_birthday [nm] (snd (Bot.add_birthday [nm; bday] book)))
    = Ok bday.
Proof.
  intros Hf Hb.
  assert (E : Bot.add_birthday [nm; bday] book
              = (Ok "Birthday added."%string,
                 Dict.set book nm (mkRecord (name r) (phones r) (Some bday)))).
  { unfold Bot.add_birthday, Bot.input_error, Bot.cbind, Bot.unpack2,
      Bot.ret, Bot.find_or_raise, Bot.call.
    rewrite Hf. cbn. rewrite Hf.
    unfold Rec.add_birthday, Birthday.new. rewrite Hb.
    reflexivity. }
  rewrite E. cbn [fst snd]. split; [reflexivity|].
  split; [apply get_set_same|].
  unfold Bot.show_birthday, Bot.input_error, Bot.cbind, Bot.expect1,
    Bot.index0, Bot.ret, Bot.find_or_raise. cbn.
  unfold Book.find. rewrite get_set_same. reflexivity.
Qed.

Lemma add_birthday_then_show_witness :
  Book.find book_scenarios "Dan" = Some (mkRecord "Dan" ["0504444444"] None) /\
  Birthday.validate_birthday "07.06.2001" = true /\
  fst (Bot.show_birthday ["Dan"]%string
         (snd (Bot.add_birthday ["Dan"; "07.06.2001"]%string book_scenarios)))
    = Ok "07.06.2001"%string.
Proof.
  split; [reflexivity|]. split; [vm_compute; reflexivity|].
  destruct (add_birthday_then_show book_scenarios "Dan" "07.06.2001"
              (mkRecord "Dan" ["0504444444"] None) eq_refl)
    as (_ & _ & H); [vm_compute; reflexivity|exact H].
Defined.

(** X17. [add_birthday] with a text that [validate_birthday] rejects leaves
    the book as it was, an earlier birthday included, and for a contact of
    the book the answer is the message about name and phone. *)
Theorem add_birthday_rejects (book : AddressBook) (nm bday : string) :
  Birthday.validate_birthday bday = false ->
  snd (Bot.add_birthday [nm; bday] book) = book /\
  (forall r, Book.find book nm = Some r ->
     fst (Bot.add_birthday [nm; bday] book)
     = Ok "Give me name and phone please."%string).
Proof.
  intros Hb.
  unfold Bot.add_birthday, Bot.input_error, Bot.cbind, Bot.unpack2,
    Bot.ret, Bot.find_or_raise, Bot.call.
  destruct (Book.find book nm) as [r|] eqn:Hf.
  - cbn. rewrite Hf. unfold Rec.add_birthday, Birthday.new. rewrite Hb. cbn.
    split; [reflexivity|]. intros r' _. reflexivity.
  - cbn. split; [reflexivity|]. intros r' H. discriminate H.
Qed.

Lemma add_birthday_rejects_witness :
  Birthday.validate_birthday "31.02.2024" = false /\
  Bot.add_birthday ["Bob"; "31.02.2024"]%string book_bob
  = (Ok "Give me name and phone please."%string, book_bob).
Proof.
  assert (Hb : Birthday.validate_birthday "31.02.2024" = false)
    by (vm_compute; reflexivity).
  split; [exact Hb|].
  destruct (add_birthday_rejects book_bob "Bob" "31.02.2024" Hb) as (H1 & H2).
  rewrite (surjective_pairing (Bot.add_birthday _ _)), H1, (H2 _ eq_refl).
  reflexivity.
Defined.

(** X18. After [add_contact] with a name that is not empty and a text of
    ten digits, [show_phone] of the name answers with that text, also when
    the name had other phones before. *)
Theorem add_contact_then_show_phone (book : AddressBook) (nm phone : string) :
  nm <> EmptyString ->
  Phone.validate_phone phone = true ->
  fst (Bot.show_phone [nm] (snd (Bot.add_contact [nm; phone] book)))
    = Ok phone.
Proof.
  intros Hn Hp.
  assert (E : Bot.add_contact [nm; phone] book
              = (Ok "Contact added."%string,
                 Dict.set book nm (mkRecord nm [phone] None))).
  { unfold Bot.add_contact, Bot.input_error, Bot.cbind, Bot.unpack2, Bot.ret.
    unfold Rec.init, Name.new, Rec.add_phone, Phone.new.
    destruct nm as [|c nm]; [contradiction|]. cbn [bind]. rewrite Hp.
    reflexivity. }
  rewrite E. cbn [snd].
  unfold Bot.show_phone, Bot.input_error, Bot.cbind, Bot.expect1,
    Bot.index0, Bot.ret, Bot.find_or_raise. cbn.
  unfold Book.find. rewrite get_set_same. reflexivity.
Qed.

Lemma add_contact_then_show_phone_witness :
  "Bob"%string <> EmptyString /\
  Phone.validate_phone "0509999999" = true /\
  fst (Bot.show_phone ["Bob"]%string
         (snd (Bot.add_contact ["Bob"; "0509999999"]%string book_bob)))
    = Ok "0509999999"%string.
Proof.
  split; [discriminate|]. split; [reflexivity|].
  apply (add_contact_then_show_phone book_bob "Bob" "0509999999");
    [discriminate|reflexivity].
Defined.

(** X19. After a [change_contact] that failed on the new phone, the
    contact has no phone left, and [show_phone] of it answers "Invalid
    command format.": [phones[0]] raises IndexError. *)
Theorem failed_change_then_show_phone (book : AddressBook)
    (nm new_phone : string) (r : record) :
  Book.find book nm = Some r ->
  Phone.validate_phone new_phone = false ->
  fst (Bot.show_phone [nm] (snd (Bot.change_contact [nm; new_phone] book)))
    = Ok "Invalid command format."%string.
Proof.
  intros Hf Hp.
  assert (E : Bot.change_contact [nm; new_phone] book
              = (Ok "Give me name and phone please."%string,
                 Dict.set book nm (Rec.remove_phones r))).
  { unfold Bot.change_contact, Bot.input_error, Bot.cbind, Bot.unpack2,
      Bot.ret, Bot.find_or_raise, Bot.call.
    rewrite Hf. unfold Book.find in *. rewrite Hf.
    rewrite get_set_same. unfold Rec.add_phone, Phone.new. rewrite Hp.
    reflexivity. }
  rewrite E. cbn [snd].
  unfold Bot.show_phone, Bot.input_error, Bot.cbind, Bot.expect1,
    Bot.index0, Bot.ret, Bot.find_or_raise. cbn.
  unfold Book.find. rewrite get_set_same. reflexivity.
Qed.

Lemma failed_change_then_show_phone_witness :
  Book.find book_bob "Bob"
    = Some (mkRecord "Bob" ["0502222222"] (Some "08.06.1995")) /\
  Phone.validate_phone "12345" = false /\
  fst (Bot.show_phone ["Bob"]%string
         (snd (Bot.change_contact ["Bob"; "12345"]%string book_bob)))
    = Ok "Invalid command format."%string.
Proof.
  split; [reflexivity|]. split; [reflexivity|].
  exact (failed_change_then_show_phone book_bob "Bob" "12345" _ eq_refl eq_refl).
Defined.

Lemma show_all_lines_raises (entries : list (string * record))
    (book : AddressBook) :
  (exists k r, In (k, r) entries /\ phones r = []) ->
  fst (Bot.show_all_lines entries book) = Raise IndexError.
Proof.
  induction entries as [|[nm r] rest IH]; intros (k & x & Hin & Hx);
    [destruct Hin|].
  cbn [Bot.show_all_lines]. unfold Bot.cbind, Bot.index0.
  destruct (phones r) as [|p ps] eqn:Hp; [reflexivity|].
  cbn. destruct Hin as [Hin|Hin]; [injection Hin as -> ->; congruence|].
  assert (H : fst (Bot.show_all_lines rest book) = Raise IndexError)
    by (apply IH; eauto).
  destruct (Bot.show_all_lines rest book) as [[ls|e] b]; cbn in *;
    [discriminate|congruence].
Qed.

(** X20. One contact without a phone hides the whole listing: [show_all]
    then answers "Invalid command format." and lists no contact. *)
Theorem show_all_needs_phones (book : AddressBook) (nm : string) (r : record) :
  In (nm, r) book -> phones r = [] ->
  Bot.show_all book = (Ok "Invalid command format."%string, book).
Proof.
  intros Hin Hp. unfold Bot.show_all, Bot.input_error.
  destruct book as [|kv book']; [destruct Hin|].
  set (book := kv :: book') in *.
  assert (H : fst (Bot.show_all_lines book book) = Raise IndexError)
    by (apply show_all_lines_raises; eauto).
  assert (Hs : forall entries b, snd (Bot.show_all_lines entries b) = b).
  { induction entries as [|[k x] rest IH]; intros b; [reflexivity|].
    cbn [Bot.show_all_lines]. unfold Bot.cbind, Bot.index0.
    destruct (phones x); [reflexivity|]. cbn.
    specialize (IH b).
    destruct (Bot.show_all_lines rest b) as [[ls|e] b']; cbn in *; congruence. }
  unfold Bot.cbind at 1.
  specialize (Hs book book).
  destruct (Bot.show_all_lines book book) as [[ls|e] b']; cbn in *;
    [discriminate|]. subst b'. injection H as ->. reflexivity.
Qed.

Lemma show_all_needs_phones_witness :
  Bot.show_all
    (snd (Bot.change_contact ["Bob"; "12345"]%string book_scenarios))
  = (Ok "Invalid command format."%string,
     snd (Bot.change_contact ["Bob"; "12345"]%string book_scenarios)).
Proof.
  apply (show_all_needs_phones _ "Bob"
           (mkRecord "Bob" [] (Some "08.06.1995"))).
  - right; left; reflexivity.
  - reflexivity.
Defined.

(** ** The loop of main *)

Lemma show_all_lines_fst (entries : list (string * record))
    (book : AddressBook) :
  (exists ls, fst (Bot.show_all_lines entries book) = Ok ls) \/
  fst (Bot.show_all_lines entries book) = Raise IndexError.
Proof.
  induction entries as [|[k x] rest IH]; [left; eexists; reflexivity|].
  cbn [Bot.show_all_lines]. unfold Bot.cbind, Bot.index0.
  destruct (phones x); [right; reflexivity|]. cbn.
  destruct (Bot.show_all_lines rest book) as [[ls|e] b']; cbn in *.
  - left. eexists; reflexivity.
  - right. destruct IH as [(ls & H)|H]; [discriminate|congruence].
Qed.

(** Every handler answers with a text: what its body raises is caught. *)
Lemma add_contact_answers (args : list string) (book : AddressBook) :
  exists s, fst (Bot.add_contact args book) = Ok s.
Proof.
  unfold Bot.add_contact, Bot.input_error, Bot.cbind, Bot.unpack2, Bot.ret,
    Bot.raise.
  destruct args as [|nm [|phone [|x args]]]; try (eexists; reflexivity).
  unfold Rec.init, Name.new. destruct nm as [|c nm]; [eexists; reflexivity|].
  cbn [bind]. unfold Rec.add_phone, Phone.new.
  destruct (Phone.validate_phone phone); eexists; reflexivity.
Qed.

Lemma change_contact_answers (args : list string) (book : AddressBook) :
  exists s, fst (Bot.change_contact args book) = Ok s.
Proof.
  unfold Bot.change_contact, Bot.input_error, Bot.cbind, Bot.unpack2, Bot.ret,
    Bot.raise, Bot.find_or_raise, Bot.call.
  destruct args as [|nm [|phone [|x args]]]; try (eexists; reflexivity).
  destruct (Book.find book nm) as [r|] eqn:Hf; [|eexists; reflexivity].
  cbn. rewrite Hf. cbn. unfold Book.find. rewrite get_set_same.
  unfold Rec.add_phone, Phone.new.
  destruct (Phone.validate_phone phone); eexists; reflexivity.
Qed.

Lemma add_birthday_answers (args : list string) (book : AddressBook) :
  exists s, fst (Bot.add_birthday args book) = Ok s.
Proof.
  unfold Bot.add_birthday, Bot.input_error, Bot.cbind, Bot.unpack2, Bot.ret,
    Bot.raise, Bot.find_or_raise, Bot.call.
  destruct args as [|nm [|bday [|x args]]]; try (eexists; reflexivity).
  destruct (Book.find book nm) as [r|] eqn:Hf; [|eexists; reflexivity].
  cbn. rewrite Hf. unfold Rec.add_birthday, Birthday.new.
  destruct (Birthday.validate_birthday bday); eexists; reflexivity.
Qed.

Lemma show_phone_answers (args : list string) (book : AddressBook) :
  exists s, Bot.show_phone args book = (Ok s, book).
Proof.
  unfold Bot.show_phone, Bot.input_error, Bot.cbind, Bot.expect1, Bot.index0,
    Bot.ret, Bot.raise, Bot.find_or_raise.
  destruct args as [|nm [|x args]]; try (eexists; reflexivity).
  - cbn. destruct (Book.find book nm) as [r|]; [|eexists; reflexivity].
    destruct (phones r); eexists; reflexivity.
  - destruct (Z.eqb_spec (Z.of_nat (List.length (nm :: x :: args))) 1) as [E|E];
      [cbn in E; lia|].
    eexists; reflexivity.
Qed.

Lemma show_birthday_answers (args : list string) (book : AddressBook) :
  exists s, Bot.show_birthday args book = (Ok s, book).
Proof.
  unfold Bot.show_birthday, Bot.input_error, Bot.cbind, Bot.expect1,
    Bot.index0, Bot.ret, Bot.raise, Bot.find_or_raise.
  destruct args as [|nm [|x args]]; try (eexists; reflexivity).
  - cbn. destruct (Book.find book nm) as [r|]; [|eexists; reflexivity].
    unfold Rec.get_birthday. destruct (birthday r); eexists; reflexivity.
  - destruct (Z.eqb_spec (Z.of_nat (List.length (nm :: x :: args))) 1) as [E|E];
      [cbn in E; lia|].
    eexists; reflexivity.
Qed.

Lemma show_all_lines_snd (entries : list (string * record)) (b : AddressBook) :
  snd (Bot.show_all_lines entries b) = b.
Proof.
  induction entries as [|[k x] rest IH]; [reflexivity|].
  cbn [Bot.show_all_lines]. unfold Bot.cbind, Bot.index0.
  destruct (phones x); [reflexivity|]. cbn.
  destruct (Bot.show_all_lines rest b) as [[ls|e] b']; cbn in *; congruence.
Qed.

Lemma show_all_answers (book : AddressBook) :
  exists s, Bot.show_all book = (Ok s, book).
Proof.
  unfold Bot.show_all, Bot.input_error.
  destruct book as [|kv book']; [eexists; reflexivity|].
  set (book := kv :: book').
  unfold Bot.cbind, Bot.ret.
  pose proof (show_all_lines_snd book book) as Hs.
  destruct (show_all_lines_fst book book) as [(ls & H)|H];
    destruct (Bot.show_all_lines book book) as [[ls'|e] b']; cbn in *;
    try discriminate; subst b'.
  - eexists; reflexivity.
  - injection H as ->. eexists; reflexivity.
Qed.

Lemma birthdays_answers (clock : datetime) (book : AddressBook) :
  valid_date (dt_date clock) ->
  exists printed o, Bot.birthdays clock book = (printed, Ok o).
Proof.
  intros Ht. unfold Bot.birthdays.
  destruct (Book.get_birthdays_per_week clock book) as [rep|e] eqn:E.
  - destruct rep; eexists; eexists; reflexivity.
  - unfold Book.get_birthdays_per_week in E.
    rewrite (birthdays_loop_raises_value _ _ Ht _ _ E).
    eexists; eexists; reflexivity.
Qed.

Lemma main_step_returns (clock : datetime) (line : string)
    (book : AddressBook) :
  valid_date (dt_date clock) ->
  exists printed b, Bot.main_step clock line book = Ok (printed, b).
Proof.
  intros Ht. unfold Bot.main_step.
  destruct (Bot.parse_input line) as [[command|] args];
    [|eexists; eexists; reflexivity].
  repeat match goal with
         | |- context [if ?c then _ else _] => destruct c
         end;
    try (eexists; eexists; reflexivity).
  - destruct (add_contact_answers args book) as (s & H).
    destruct (Bot.add_contact args book) as [out b]. cbn in H. subst out.
    eexists; eexists; reflexivity.
  - destruct (change_contact_answers args book) as (s & H).
    destruct (Bot.change_contact args book) as [out b]. cbn in H. subst out.
    eexists; eexists; reflexivity.
  - destruct (show_phone_answers args book) as (s & ->).
    eexists; eexists; reflexivity.
  - destruct (show_all_answers book) as (s & ->).
    eexists; eexists; reflexivity.
  - destruct (add_birthday_answers args book) as (s & H).
    destruct (Bot.add_birthday args book) as [out b]. cbn in H. subst out.
    eexists; eexists; reflexivity.
  - destruct (show_birthday_answers args book) as (s & ->).
    eexists; eexists; reflexivity.
  - destruct (birthdays_answers clock book Ht) as (printed & o & ->).
    eexists; eexists; reflexivity.
Qed.

(** ** Records as the validators leave them *)

Lemma record_valid_iff (r : record) :
  record_valid r = true <->
  name r <> EmptyString /\
  forallb Phone.validate_phone (phones r) = true /\
  match birthday r with
  | Some b => Birthday.validate_birthday b
  | None => true
  end = true.
Proof.
  unfold record_valid. rewrite !andb_true_iff, negb_true_iff, String.eqb_neq.
  tauto.
Qed.

Lemma init_valid (nm : string) (r : record) :
  Rec.init nm = Ok r -> record_valid r = true.
Proof.
  unfold Rec.init, Name.new. destruct nm; [discriminate|].
  cbn. intros [= <-]. reflexivity.
Qed.

Lemma add_phone_valid (self r : record) (phone : string) :
  record_valid self = true -> Rec.add_phone self phone = Ok r ->
  record_valid r = true.
Proof.
  unfold Rec.add_phone, Phone.new. intros Hs.
  destruct (Phone.validate_phone phone) eqn:Hp; [|discriminate].
  cbn. intros [= <-]. apply record_valid_iff in Hs as (Hn & Hps & Hb).
  apply record_valid_iff. cbn. repeat split; try assumption.
  rewrite forallb_app, Hps. cbn. rewrite Hp. reflexivity.
Qed.

Lemma add_birthday_valid (self r : record) (bday : string) :
  record_valid self = true -> Rec.add_birthday self bday = Ok r ->
  record_valid r = true.
Proof.
  unfold Rec.add_birthday, Birthday.new. intros Hs.
  destruct (Birthday.validate_birthday bday) eqn:Hp; [|discriminate].
  cbn. intros [= <-]. apply record_valid_iff in Hs as (Hn & Hps & Hb).
  apply record_valid_iff. cbn. repeat split; assumption.
Qed.

Lemma remove_phone_valid (self : record) (phone : string) :
  record_valid self = true -> record_valid (Rec.remove_phone self phone) = true.
Proof.
  intros Hs. apply record_valid_iff in Hs as (Hn & Hps & Hb).
  apply record_valid_iff. cbn. repeat split; try assumption.
  rewrite forallb_forall in *. intros p Hp. apply filter_In in Hp as (Hp & _).
  exact (Hps p Hp).
Qed.

Lemma remove_phones_valid (self : record) :
  record_valid self = true -> record_valid (Rec.remove_phones self) = true.
Proof.
  intros Hs. apply record_valid_iff in Hs as (Hn & _ & Hb).
  apply record_valid_iff. cbn. repeat split; assumption.
Qed.

Lemma edit_first_valid (ps : list string) (old_phone new_phone : string) :
  forallb Phone.validate_phone ps = true ->
  Phone.validate_phone new_phone = true ->
  forallb Phone.validate_phone (Rec.edit_first ps old_phone new_phone) = true.
Proof.
  intros Hps Hn. induction ps as [|p ps IH]; cbn in *; [reflexivity|].
  apply andb_true_iff in Hps as (Hp & Hps).
  destruct (String.eqb p old_phone); cbn; rewrite ?Hn, ?Hp, ?Hps; auto.
Qed.

Lemma call_valid (nm : string) (method : record -> result record)
    (book : AddressBook) :
  (forall r r', record_valid r = true -> method r = Ok r' ->
                record_valid r' = true) ->
  store_valid book = true -> store_valid (snd (Bot.call nm method book)) = true.
Proof.
  intros Hm Hs. unfold Bot.call, Book.find.
  destruct (Dict.get book nm) as [r|] eqn:Hg; [|exact Hs].
  destruct (method r) as [r'|e] eqn:Hr; [|exact Hs].
  cbn. apply (forallb_dict_set record_valid); [exact Hs|].
  apply (Hm r r'); [|exact Hr].
  exact (forallb_dict_get record_valid _ _ _ Hs Hg).
Qed.

Lemma add_contact_valid (args : list string) (book : AddressBook) :
  store_valid book = true ->
  store_valid (snd (Bot.add_contact args book)) = true.
Proof.
  intros Hs. unfold Bot.add_contact, Bot.input_error, Bot.cbind, Bot.unpack2.
  destruct args as [|nm [|phone [|x args]]]; try exact Hs.
  cbn. destruct (Rec.init nm) as [r0|e0] eqn:H0; cbn.
  - destruct (Rec.add_phone r0 phone) as [r1|e1] eqn:H1; cbn.
    + apply (forallb_dict_set record_valid); [exact Hs|].
      apply (add_phone_valid r0 r1 phone); [|exact H1]. exact (init_valid _ _ H0).
    + destruct e1; exact Hs.
  - destruct e0; exact Hs.
Qed.

Lemma apply_op_valid (o : op) (book : AddressBook) :
  op_validated o = true -> store_valid book = true ->
  store_valid (apply_op o book) = true.
Proof.
  intros Hv Hs. destruct o as [nm p|nm|nm p|nm p|nm old new|nm b]; cbn [apply_op].
  - apply add_contact_valid; exact Hs.
  - unfold Book.delete. destruct (Dict.get book nm); [|exact Hs].
    apply (forallb_dict_del record_valid); exact Hs.
  - apply call_valid; [|exact Hs]. intros r r'. apply add_phone_valid.
  - apply call_valid; [|exact Hs]. intros r r' Hr [= <-].
    apply remove_phone_valid; exact Hr.
  - apply call_valid; [|exact Hs]. intros r r' Hr [= <-].
    apply record_valid_iff in Hr as (Hn & Hps & Hb).
    apply record_valid_iff. cbn. repeat split; try assumption.
    apply edit_first_valid; [exact Hps|exact Hv].
  - apply call_valid; [|exact Hs]. intros r r'. apply add_birthday_valid.
Qed.

(** X29. A sequence of store and record operations in which every
    [edit_phone] is given a text that [validate_phone] accepts keeps every
    record as the validators leave it: every name not empty, every stored
    phone accepted by [validate_phone], every stored birthday accepted by
    [validate_birthday]. *)
Theorem run_ops_keep_validated (ops : list op) (book : AddressBook) :
  forallb op_validated ops = true -> store_valid book = true ->
  store_valid (run_ops ops book) = true.
Proof.
  unfold run_ops. revert book.
  induction ops as [|o ops IH]; intros book Hv Hs; cbn in *.
  - exact Hs.
  - apply andb_true_iff in Hv as (Ho & Hv).
    apply IH; [exact Hv|]. apply apply_op_valid; assumption.
Qed.

Lemma run_ops_keep_validated_witness :
  store_valid book_scenarios = true /\
  store_valid
    (run_ops
       [ OpAdd "Eve" "0505555555"; OpAddPhone "Eve" "0507777777";
         OpEditPhone "Eve" "0505555555" "0508888888";
         OpRemovePhone "Ann" "0501111111"; OpAddBirthday "Dan" "1.2.2003";
         OpAddPhone "Bob" "no phone"; OpDelete "Cid" ]%string
       book_scenarios) = true.
Proof.
  assert (H0 : store_valid book_scenarios = true) by (vm_compute; reflexivity).
  split; [exact H0|].
  apply run_ops_keep_validated; [reflexivity|exact H0].
Defined.

(** ** Runs of main *)

(** X21. No exception of a handler or of the scheduler ends the loop of
    [main]: whatever lines it reads, every such exception is one that
    [input_error] catches. A run ends at a close or exit, or when
    [input()] finds no line left, whose EOFError nothing catches. *)
Theorem main_loop_never_fails (inputs : list (datetime * string)) :
  (forall clock line, In (clock, line) inputs -> valid_date (dt_date clock)) ->
  forall book,
    (exists printed, Bot.main_loop inputs book = Bot.Stopped printed) \/
    (exists printed book',
       Bot.main_loop inputs book = Bot.Starved printed book').
Proof.
  induction inputs as [|[clock line] rest IH]; intros Hv book.
  - right. eexists; eexists; reflexivity.
  - cbn [Bot.main_loop].
    destruct (main_step_returns clock line book) as (printed & b & ->);
      [apply (Hv clock line); left; reflexivity|].
    destruct b as [book'|]; [|left; eexists; reflexivity].
    destruct (IH (fun c l Hin => Hv c l (or_intror Hin)) book')
      as [(p & ->)|(p & b' & ->)].
    + left. eexists; reflexivity.
    + right. eexists; eexists; reflexivity.
Qed.

Lemma main_loop_never_fails_witness :
  (exists printed,
     Bot.main_loop
       [ (monday_2023_06_05, "add Fay 0506666666");
         (monday_2023_06_05, "add-birthday Fay 29.02.2000");
         (monday_2023_06_05, "birthdays");
         (monday_2023_06_05, "phone") ]%string [] = Bot.Stopped printed) \/
  (exists printed book',
     Bot.main_loop
       [ (monday_2023_06_05, "add Fay 0506666666");
         (monday_2023_06_05, "add-birthday Fay 29.02.2000");
         (monday_2023_06_05, "birthdays");
         (monday_2023_06_05, "phone") ]%string []
     = Bot.Starved printed book').
Proof.
  apply main_loop_never_fails.
  intros clock line [[= <- _]|[[= <- _]|[[= <- _]|[[= <- _]|[]]]]];
    reflexivity.
Defined.

Lemma call_inv (nm : string) (method : record -> result record)
    (book : AddressBook) :
  (forall r r', record_valid r = true -> method r = Ok r' ->
                record_valid r' = true) ->
  (forall r r', method r = Ok r' -> name r' = name r) ->
  book_inv book -> book_inv (snd (Bot.call nm method book)).
Proof.
  intros H1 H2 (Hs & Hk). split.
  - apply call_valid; assumption.
  - apply call_keys; assumption.
Qed.

Lemma add_contact_inv (args : list string) (book : AddressBook) :
  book_inv book -> book_inv (snd (Bot.add_contact args book)).
Proof.
  intros (Hs & Hk). split;
    [apply add_contact_valid; assumption|apply add_contact_keys; assumption].
Qed.

Lemma change_contact_snd (args : list string) (book : AddressBook) :
  snd (Bot.change_contact args book) = book \/
  exists nm new_phone,
    args = [nm; new_phone] /\
    snd (Bot.change_contact args book)
    = snd (Bot.call nm (fun r => Rec.add_phone r new_phone)
             (snd (Bot.call nm (fun r => Ok (Rec.remove_phones r)) book))).
Proof.
  unfold Bot.change_contact, Bot.input_error, Bot.cbind, Bot.unpack2, Bot.ret,
    Bot.raise, Bot.find_or_raise.
  destruct args as [|nm [|phone [|x args]]]; try (left; reflexivity).
  destruct (Book.find book nm) as [r|] eqn:Hf; [|left; reflexivity].
  right. exists nm, phone. split; [reflexivity|].
  destruct (Bot.call nm (fun r0 => Ok (Rec.remove_phones r0)) book)
    as [[u|e] b1] eqn:E1; cbn [snd].
  - destruct (Bot.call nm (fun r0 => Rec.add_phone r0 phone) b1)
      as [[u2|e2] b2]; cbn; [reflexivity|destruct e2; reflexivity].
  - unfold Bot.call in E1. rewrite Hf in E1. discriminate E1.
Qed.

Lemma change_contact_inv (args : list string) (book : AddressBook) :
  book_inv book -> book_inv (snd (Bot.change_contact args book)).
Proof.
  intros Hb.
  destruct (change_contact_snd args book) as [->|(nm & p & _ & ->)];
    [exact Hb|].
  apply call_inv.
  - intros r r'. apply add_phone_valid.
  - intros r r'. apply add_phone_name.
  - apply call_inv; [| |exact Hb].
    + intros r r' Hr [= <-]. apply remove_phones_valid. exact Hr.
    + intros r r' [= <-]. reflexivity.
Qed.

Lemma add_birthday_snd (args : list string) (book : AddressBook) :
  snd (Bot.add_birthday args book) = book \/
  exists nm bday,
    args = [nm; bday] /\
    snd (Bot.add_birthday args book)
    = snd (Bot.call nm (fun r => Rec.add_birthday r bday) book).
Proof.
  unfold Bot.add_birthday, Bot.input_error, Bot.cbind, Bot.unpack2, Bot.ret,
    Bot.raise, Bot.find_or_raise.
  destruct args as [|nm [|bday [|x args]]]; try (left; reflexivity).
  destruct (Book.find book nm) as [r|] eqn:Hf; [|left; reflexivity].
  right. exists nm, bday. split; [reflexivity|].
  destruct (Bot.call nm (fun r0 => Rec.add_birthday r0 bday) book)
    as [[u|e] b1]; cbn; [reflexivity|destruct e; reflexivity].
Qed.

Lemma add_birthday_inv (args : list string) (book : AddressBook) :
  book_inv book -> book_inv (snd (Bot.add_birthday args book)).
Proof.
  intros Hb.
  destruct (add_birthday_snd args book) as [->|(nm & b & _ & ->)];
    [exact Hb|].
  apply call_inv; [| |exact Hb].
  - intros r r'. apply add_birthday_valid.
  - intros r r'. apply add_birthday_name.
Qed.

Lemma print_result_inv (r : result string * AddressBook) (printed : list string)
    (book' : AddressBook) :
  Bot.print_result r = Ok (printed, Some book') -> book' = snd r.
Proof.
  destruct r as [[s|e] b]; cbn; [|discriminate]. intros [= _ <-]. reflexivity.
Qed.

Lemma main_step_inv (clock : datetime) (line : string) (book book' : AddressBook)
    (printed : list string) :
  book_inv book ->
  Bot.main_step clock line book = Ok (printed, Some book') ->
  book_inv book'.
Proof.
  intros Hb. unfold Bot.main_step.
  destruct (Bot.parse_input line) as [[command|] args];
    [|intros [= _ <-]; exact Hb].
  repeat match goal with
         | |- context [if ?c then _ else _] => destruct c
         end;
    intros H;
    try (apply print_result_inv in H; subst book');
    try (injection H as _ <-; exact Hb);
    try discriminate H.
  - apply add_contact_inv; exact Hb.
  - apply change_contact_inv; exact Hb.
  - destruct (show_phone_answers args book) as (s & ->). exact Hb.
  - destruct (show_all_answers book) as (s & ->). exact Hb.
  - apply add_birthday_inv; exact Hb.
  - destruct (show_birthday_answers args book) as (s & ->). exact Hb.
  - destruct (Bot.birthdays clock book) as [pr [o|e]]; [|discriminate H].
    injection H as _ <-. exact Hb.
Qed.

(** X22. Through the commands of [main] the book keeps its invariants:
    whatever lines the loop has read from the empty book, every stored name
    is not empty, every stored phone is a text that [validate_phone]
    accepted, every stored birthday a text that [validate_birthday]
    accepted, no name is held twice and every record is held under its own
    name. *)
Theorem main_loop_keeps_book_invariants (inputs : list (datetime * string))
    (printed : list string) (book : AddressBook) :
  Bot.main_loop inputs [] = Bot.Starved printed book ->
  store_valid book = true /\ NoDup (Dict.keys book) /\ keyed_by_name book.
Proof.
  assert (H : forall b0 pr b,
             book_inv b0 -> Bot.main_loop inputs b0 = Bot.Starved pr b ->
             book_inv b).
  { induction inputs as [|[clock line] rest IH]; intros b0 pr b Hb0; cbn.
    - intros [= _ <-]. exact Hb0.
    - destruct (Bot.main_step clock line b0) as [[pr1 [b1|]]|e] eqn:E;
        try discriminate.
      destruct (Bot.main_loop rest b1) as [pr2|pr2 b2|pr2 e2] eqn:E2;
        try discriminate.
      intros [= _ ->]. apply (IH b1 pr2 b); [|exact E2].
      exact (main_step_inv _ _ _ _ _ Hb0 E). }
  intros Hl. apply (H [] printed book); [|exact Hl].
  split; [reflexivity|]. split; [constructor|intros k r []].
Qed.

Lemma main_loop_keeps_book_invariants_witness :
  Bot.main_loop
    [ (monday_2024_06_03, "add Ann 0501111111");
      (monday_2024_06_03, "change Ann abc");
      (monday_2024_06_03, "add-birthday Ann 1.6.1990") ]%string []
  = Bot.Starved
      ["Contact added."; "Give me name and phone please.";
       "Birthday added."]%string
      [("Ann", mkRecord "Ann" [] (Some "1.6.1990"))]%string /\
  store_valid [("Ann", mkRecord "Ann" [] (Some "1.6.1990"))]%string = true /\
  NoDup (Dict.keys [("Ann", mkRecord "Ann" [] (Some "1.6.1990"))]%string) /\
  keyed_by_name [("Ann", mkRecord "Ann" [] (Some "1.6.1990"))]%string.
Proof.
  assert (H : Bot.main_loop
                [ (monday_2024_06_03, "add Ann 0501111111");
                  (monday_2024_06_03, "change Ann abc");
                  (monday_2024_06_03, "add-birthday Ann 1.6.1990") ]%string []
              = Bot.Starved
                  ["Contact added."; "Give me name and phone please.";
                   "Birthday added."]%string
                  [("Ann", mkRecord "Ann" [] (Some "1.6.1990"))]%string)
    by (vm_compute; reflexivity).
  split; [exact H|].
  exact (main_loop_keeps_book_invariants _ _ _ H).
Defined.

(** X23. When the candidate date of some contact cannot be built, the
    birthdays command prints nothing at all: the scheduler raises, the
    handler returns the message of [input_error], and [main] does not print
    what this handler returns. *)
Theorem birthdays_command_silent (clock : datetime) (line : string)
    (book : AddressBook) (nm : string) (r : record) (b : string) (e : exn) :
  valid_date (dt_date clock) ->
  fst (Bot.parse_input line) = Some "birthdays"%string ->
  Book.find book nm = Some r -> birthday r = Some b ->
  candidate (dt_date clock) b = Raise e ->
  Bot.main_step clock line book = Ok ([], Some book).
Proof.
  intros Ht Hp Hfind Hb Hc. unfold Bot.main_step.
  destruct (Bot.parse_input line) as [command args]. cbn in Hp. subst command.
  cbn [String.eqb Ascii.eqb Bool.eqb].
  unfold Bot.birthdays, Book.get_birthdays_per_week. cbv zeta.
  destruct (birthdays_loop_raises (dt_date clock) book [] nm r b e)
    as (e' & He').
  - apply get_In. exact Hfind.
  - exact Hb.
  - apply day_of_week_for_raises. exact Hc.
  - rewrite He', (birthdays_loop_raises_value _ _ Ht _ _ He'). reflexivity.
Qed.

Lemma birthdays_command_silent_witness :
  valid_date (dt_date monday_2023_06_05) /\
  Bot.main_step monday_2023_06_05 "  Birthdays " book_leap_day
  = Ok ([], Some book_leap_day).
Proof.
  split; [reflexivity|].
  apply (birthdays_command_silent monday_2023_06_05 "  Birthdays "
           book_leap_day "Fay"
           (snd (contact "Fay" "0506666666" "29.02.2000")) "29.02.2000"
           ValueError).
  - reflexivity.
  - reflexivity.
  - reflexivity.
  - reflexivity.
  - vm_compute; reflexivity.
Defined.

Lemma split_blank (s : string) :
  blank s = true -> Str.split_from s EmptyString = [].
Proof.
  induction s as [|c s IH]; cbn; [reflexivity|].
  intros H. apply andb_true_iff in H as (Hc & Hs). rewrite Hc. exact (IH Hs).
Qed.

(** X24. A line without a word, the empty line included, is answered with
    "Invalid command."; the book stays as it is and the loop goes on. *)
Theorem blank_line_invalid (clock : datetime) (line : string)
    (book : AddressBook) :
  blank line = true ->
  Bot.main_step clock line book = Ok (["Invalid command."%string], Some book).
Proof.
  intros H. unfold Bot.main_step, Bot.parse_input, Str.split.
  rewrite (split_blank line H). reflexivity.
Qed.

Lemma blank_line_invalid_witness :
  blank "   " = true /\
  Bot.main_step monday_2024_06_03 "   " book_bob
  = Ok (["Invalid command."%string], Some book_bob).
Proof.
  split; [reflexivity|].
  exact (blank_line_invalid monday_2024_06_03 "   " book_bob eq_refl).
Defined.

(** ** Instances of the properties above *)

Lemma weekend_shift_monday_witness :
  valid_date (mkdate 2024 6 8) /\
  4 < weekday (mkdate 2024 6 8) /\
  Book.weekend_shift (mkdate 1995 6 8) (mkdate 2024 6 8) = Ok (mkdate 2024 6 10) /\
  weekday (mkdate 2024 6 10) = 0 /\
  sub_days (mkdate 2024 6 10) (mkdate 2024 6 8) = 7 - weekday (mkdate 2024 6 8) /\
  1 <= sub_days (mkdate 2024 6 10) (mkdate 2024 6 8) <= 2.
Proof.
  split; [reflexivity|]. split; [reflexivity|]. split; [reflexivity|].
  apply (weekend_shift_monday (mkdate 1995 6 8) (mkdate 2024 6 8)
           (mkdate 2024 6 10)); reflexivity.
Defined.

Lemma weekend_shift_raises_witness :
  valid_date (mkdate 2024 6 30) /\
  4 < weekday (mkdate 2024 6 30) /\
  (Book.weekend_shift (mkdate 1990 6 30) (mkdate 2024 6 30) = Raise ValueError
   <-> days_in_month 2024 6 < 30 + (7 - weekday (mkdate 2024 6 30))).
Proof.
  split; [reflexivity|]. split; [reflexivity|].
  apply (weekend_shift_raises (mkdate 1990 6 30) (mkdate 2024 6 30));
    reflexivity.
Defined.

Lemma leap_day_no_candidate_witness :
  is_leap (year (dt_date monday_2023_06_05)) = false /\
  Book.rolled_birthday (dt_date monday_2023_06_05) (mkdate 2000 2 29)
    = Raise ValueError.
Proof.
  split; [reflexivity|].
  apply (leap_day_no_candidate (dt_date monday_2023_06_05) (mkdate 2000 2 29));
    reflexivity.
Defined.


Lemma strict_birthday_accepted_witness :
  strict_birthday "05.06.1990" /\
  Birthday.validate_birthday "05.06.1990" = true.
Proof.
  assert (H : strict_birthday "05.06.1990").
  { exists "05"%string, "06"%string, "1990"%string, 5, 6, 1990.
    split; [reflexivity|].
    split; [exists "0"%char, "5"%char; repeat split|].
    split; [exists "0"%char, "6"%char; repeat split|].
    split; [exists "1"%char, "9"%char, "9"%char, "0"%char; repeat split|].
    reflexivity. }
  split; [exact H|].
  exact (strict_birthday_accepted "05.06.1990" H).
Defined.

(** ** The window when the scheduler raises *)

(** C2. Two runs in which a contact's candidate date lies in the window
    and the contact is in no report, because the scheduler raises.
    On Monday 2024-06-24 the candidate date of Zed (26.06) is two days
    ahead, and the run raises ValueError on Eve (30.06), whose shift asks
    for day 31 of June. On Tuesday 2024-03-26 the birthday of Sue (31.03)
    falls on Sunday 2024-03-31, the Monday after is 2024-04-01, six days
    ahead, and the run raises ValueError on day 32 of March. *)
Theorem window_lost_when_scheduler_raises :
  (candidate (dt_date monday_2024_06_24) "26.06.1990" = Ok (mkdate 2024 6 26) /\
   sub_days (mkdate 2024 6 26) (dt_date monday_2024_06_24) = 2 /\
   Book.get_birthdays_per_week monday_2024_06_24 book_zed_eve
     = Raise ValueError) /\
  (Book.rolled_birthday (dt_date tuesday_2024_03_26) (mkdate 1992 3 31)
     = Ok (mkdate 2024 3 31) /\
   weekday (mkdate 2024 3 31) = 6 /\
   add_days (mkdate 2024 3 31) 1 = Ok (mkdate 2024 4 1) /\
   weekday (mkdate 2024 4 1) = 0 /\
   sub_days (mkdate 2024 4 1) (dt_date tuesday_2024_03_26) = 6 /\
   Book.get_birthdays_per_week tuesday_2024_03_26 book_sue
     = Raise ValueError).
Proof. repeat split; vm_compute; reflexivity. Qed.

(** ** The report and the order of the book *)








(** ** validate_birthday on ASCII text *)

(** C8, as the code has it. For a text of ASCII characters,
    [validate_birthday] accepts exactly the texts day '.' month '.' year
    where the day is 01 to 31 in two digits or 1 to 9 in one digit, which a
    single space may precede, the month is 01 to 12 in two digits or 1 to 9
    in one, the year is four digits, and the three name a day of the
    calendar. *)
Theorem validate_birthday_ascii_iff (value : string) :
  ascii_text value = true ->
  (Birthday.validate_birthday value = true <-> lenient_birthday value).
Proof.
  intros _. rewrite validate_birthday_strptime. apply strptime_ok_iff.
Qed.

Lemma validate_birthday_ascii_iff_witness :
  ascii_text "1.2.2024" = true /\
  (Birthday.validate_birthday "1.2.2024" = true <->
   lenient_birthday "1.2.2024").
Proof.
  split; [reflexivity|].
  apply (validate_birthday_ascii_iff "1.2.2024"). reflexivity.
Defined.
